(** * The manifest merger of build/update_manifest.py

    A shallow embedding of [env], [load_manifest] and [main], and the
    properties of the merge, the load and the persist step.

    Python values are embedded as follows.
    - A [str] is a [string]; the program only compares strings for
      equality, concatenates them and passes them on.
    - A value produced by [json.load] is a [json]; a Python [dict] is an
      association list in insertion order, which is the order [json.dump]
      writes the keys in.
    - An exception is a value of [exn]; a computation that may raise
      returns [exn + A], with [inl] the raised exception. *)

From Stdlib Require Import ZArith Ascii String Lia.
From stdpp Require Import base option list countable strings gmap.

Local Open Scope string_scope.
Local Open Scope list_scope.

(** ** Values *)

#[warnings="-register-all"]
Inductive json : Type :=
| JNull
| JBool (b : bool)
| JInt (z : Z)
| JFloat (repr : string)
| JStr (s : string)
| JArr (items : list json)
| JObj (fields : list (string * json)).

(** A [dict] with [str] keys, in insertion order. *)
Definition dict : Type := list (string * json).

(** The exceptions the program can meet. [SystemExit] carries the exit
    status passed to [sys.exit]. *)
Inductive os_error : Type :=
| FileNotFoundError
| FileExistsError
| IsADirectoryError
| NotADirectoryError.

Inductive exn : Type :=
| AttributeError
| TypeError
| JSONDecodeError
| UnicodeDecodeError
| OSError (e : os_error)
| SystemExit (code : Z).

Definition bind_exn {A B : Type} (m : exn + A) (k : A -> exn + B) : exn + B :=
  match m with
  | inl e => inl e
  | inr a => k a
  end.

Notation "'do' x <- m ; k" := (bind_exn m (fun x => k))
  (at level 10, x name, m at level 100, k at level 200).

(** ** Python operations on values *)

Module Py.

(** [d.get(k)]: the first (and, in a Python dict, only) binding of [k]. *)
Fixpoint dict_get (k : string) (d : dict) : option json :=
  match d with
  | [] => None
  | (k', v) :: r => if String.eqb k' k then Some v else dict_get k r
  end.

(** [d[k] = v]: an existing key keeps its place, a new key goes last. *)
Fixpoint dict_set (k : string) (v : json) (d : dict) : dict :=
  match d with
  | [] => [(k, v)]
  | (k', v') :: r =>
      if String.eqb k' k then (k', v) :: r else (k', v') :: dict_set k v r
  end.

(** [d.update(other)]: the bindings of [other] are set one by one, in order. *)
Definition dict_update (d other : dict) : dict :=
  fold_left (fun acc kv => dict_set (fst kv) (snd kv) acc) other d.

(** [x.get(k)] on a value loaded from JSON: only a dict has [get]. *)
Definition get (x : json) (k : string) : exn + option json :=
  match x with
  | JObj d => inr (dict_get k d)
  | _ => inl AttributeError
  end.

(** [x == s] for the result [x] of a [get] and a [str] [s]: equal only
    when [x] is a [str] with the same characters ([None], numbers,
    booleans, lists and dicts are never equal to a [str]). *)
Definition eq_str (x : option json) (s : string) : bool :=
  match x with
  | Some (JStr t) => String.eqb t s
  | _ => false
  end.

(** [for v in x]: a list gives its items, a dict its keys, a str its
    characters (each a str); anything else is not iterable. *)
Definition iter (x : json) : exn + list json :=
  match x with
  | JArr l => inr l
  | JObj d => inr (map (fun kv => JStr (fst kv)) d)
  | JStr s => inr (map (fun c => JStr (String c EmptyString)) (list_ascii_of_string s))
  | _ => inl TypeError
  end.

End Py.

(** ** The submitted fields *)

(** The twelve values read from the environment after [MANIFEST_PATH]. *)
Record Fields : Type := mkFields {
  f_NAME : string;
  f_GUID : string;
  f_OVERVIEW : string;
  f_DESCRIPTION : string;
  f_CATEGORY : string;
  f_OWNER : string;
  f_IMAGE_URL : string;
  f_VERSION : string;
  f_TARGET_ABI : string;
  f_DOWNLOAD_URL : string;
  f_CHECKSUM : string;
  f_TIMESTAMP : string
}.

(** The dict literal [plugin] of [main]. *)
Definition plugin (f : Fields) : dict :=
  [ ("name", JStr (f_NAME f));
    ("guid", JStr (f_GUID f));
    ("overview", JStr (f_OVERVIEW f));
    ("description", JStr (f_DESCRIPTION f));
    ("category", JStr (f_CATEGORY f));
    ("owner", JStr (f_OWNER f));
    ("imageUrl", JStr (f_IMAGE_URL f)) ].

(** The dict literal [version_entry] of [main]. *)
Definition version_entry (f : Fields) : dict :=
  [ ("version", JStr (f_VERSION f));
    ("targetAbi", JStr (f_TARGET_ABI f));
    ("sourceUrl", JStr (f_DOWNLOAD_URL f));
    ("checksum", JStr (f_CHECKSUM f));
    ("timestamp", JStr (f_TIMESTAMP f)) ].

(** ** The merge (lines 56 to 68 of [main]) *)

(** The comprehension
    [[v for v in ... if v.get("version") != version_entry["version"]]]
    over the items [vs] already obtained from the iteration. *)
Fixpoint keep_other_versions (ver : string) (vs : list json) : exn + list json :=
  match vs with
  | [] => inr []
  | v :: r =>
      do x <- Py.get v "version";
      do rest <- keep_other_versions ver r;
      inr (if Py.eq_str x ver then rest else v :: rest)
  end.

(** The body of the [if] for the matching entry: [entry.update(plugin)],
    the comprehension over [entry.get("versions", [])], and the assignment
    to [entry["versions"]]. *)
Definition update_entry (f : Fields) (entry : dict) : exn + dict :=
  let entry1 := Py.dict_update entry (plugin f) in
  do vs <- Py.iter (default (JArr []) (Py.dict_get "versions" entry1));
  do existing <- keep_other_versions (f_VERSION f) vs;
  inr (Py.dict_set "versions" (JArr (JObj (version_entry f) :: existing)) entry1).

(** The [for] loop. [Some m] is the manifest after a [break]; [None]
    means the loop ran to its end, so that the [else] branch runs.
    [entry.get("guid")] raises on an entry that is not a dict. *)
Fixpoint scan (f : Fields) (manifest : list json) : exn + option (list json) :=
  match manifest with
  | [] => inr None
  | entry :: rest =>
      match entry with
      | JObj d =>
          if Py.eq_str (Py.dict_get "guid" d) (f_GUID f) then
            do d' <- update_entry f d;
            inr (Some (JObj d' :: rest))
          else
            do r <- scan f rest;
            inr (option_map (cons entry) r)
      | _ => inl AttributeError
      end
  end.

(** The entry appended by the [else] branch: [plugin] with its new
    ["versions"] key. *)
Definition new_entry (f : Fields) : json :=
  JObj (Py.dict_set "versions" (JArr [JObj (version_entry f)]) (plugin f)).

(** The whole [for ... else]: the manifest as it is when line 70 is reached. *)
Definition merge (f : Fields) (manifest : list json) : exn + list json :=
  do r <- scan f manifest;
  match r with
  | Some m => inr m
  | None => inr (manifest ++ [new_entry f])
  end.

(** ** Paths (pathlib on POSIX) *)

Record Path : Type := mkPath {
  p_root : string;          (* "", "/" or "//" *)
  p_parts : list string     (* the components after the root *)
}.

#[global] Instance Path_eq_dec : EqDecision Path.
Proof. solve_decision. Defined.

#[global] Instance Path_countable : Countable Path :=
  inj_countable' (fun p => (p_root p, p_parts p))
                 (fun t => mkPath (fst t) (snd t))
                 (fun p => match p with mkPath _ _ => eq_refl end).

Module Pathlib.

Definition slash : ascii := "/"%char.

(** [s.split("/")]. *)
Fixpoint components (s : string) : list string :=
  match s with
  | EmptyString => [EmptyString]
  | String c r =>
      if Ascii.eqb c slash then EmptyString :: components r
      else match components r with
           | [] => [String c EmptyString]
           | x :: xs => String c x :: xs
           end
  end.

(** The root of [posixpath.splitroot]: exactly two leading slashes are
    kept, one or three and more collapse to one. *)
Definition root_of (s : string) : string :=
  match s with
  | String c1 (String c2 (String c3 _)) =>
      if Ascii.eqb c1 slash then
        if Ascii.eqb c2 slash then (if Ascii.eqb c3 slash then "/" else "//")
        else "/"
      else ""
  | String c1 (String c2 EmptyString) =>
      if Ascii.eqb c1 slash then (if Ascii.eqb c2 slash then "//" else "/") else ""
  | String c1 EmptyString => if Ascii.eqb c1 slash then "/" else ""
  | EmptyString => ""
  end.

(** Empty components and "." are dropped when a path is parsed. *)
Definition kept (c : string) : bool :=
  negb (String.eqb c "") && negb (String.eqb c ".").

(** [Path(s)]. *)
Definition of_string (s : string) : Path :=
  mkPath (root_of s) (List.filter kept (components s)).

(** [p.name]: the last component, or the empty string. *)
Definition name (p : Path) : string := List.last (p_parts p) "".

(** [p.parent]: a path without components is its own parent. *)
Definition parent (p : Path) : Path :=
  mkPath (p_root p) (List.removelast (p_parts p)).

(** [p / s]: an absolute [s] replaces [p]. *)
Definition div (p : Path) (s : string) : Path :=
  let q := of_string s in
  if String.eqb (p_root q) "" then mkPath (p_root p) (p_parts p ++ p_parts q)
  else q.

End Pathlib.

(** ** The process and its file system *)

Inductive node : Type :=
| File (content : string)
| Dir.

(** What the program can observe and change: the environment variables,
    the file system, what was printed to the error stream, and every state
    the file system went through (the latest first), so that a reader of
    the file system meanwhile is accounted for. [w_dir_size] is the
    [st_size] the file system reports for a directory. *)
Record World : Type := mkWorld {
  w_environ : gmap string string;
  w_fs : gmap Path node;
  w_dir_size : Path -> N;
  w_stderr : list string;
  w_past : list (gmap Path node)
}.

Definition IO (A : Type) : Type := World -> (exn + A) * World.

Definition ret {A : Type} (a : A) : IO A := fun w => (inr a, w).

Definition raise {A : Type} (e : exn) : IO A := fun w => (inl e, w).

Definition bind_io {A B : Type} (m : IO A) (k : A -> IO B) : IO B :=
  fun w =>
    match m w with
    | (inl e, w') => (inl e, w')
    | (inr a, w') => k a w'
    end.

Notation "'io' x <- m ; k" := (bind_io m (fun x => k))
  (at level 10, x name, m at level 100, k at level 200).

(** A pure computation that may raise, run inside the process. *)
Definition lift {A : Type} (r : exn + A) : IO A := fun w => (r, w).

(** The exit status of the interpreter: [sys.exit(n)] gives [n], any other
    uncaught exception gives 1. *)
Definition exit_status {A : Type} (r : exn + A) : Z :=
  match r with
  | inr _ => 0
  | inl (SystemExit n) => n
  | inl _ => 1
  end.

(** The line feed character, as a string. *)
Definition newline : string := String (ascii_of_nat 10) EmptyString.

Module OS.

Definition environ_get (name : string) : IO (option string) :=
  fun w => (inr (w_environ w !! name), w).

(** [print(s, file=sys.stderr)]. *)
Definition print_stderr (s : string) : IO unit :=
  fun w => (inr tt,
            mkWorld (w_environ w) (w_fs w) (w_dir_size w)
                    (w_stderr w ++ [s +:+ newline]) (w_past w)).

(** Every change of the file system goes through [set_fs], which records
    the state it leaves. *)
Definition set_fs (fs : gmap Path node) : IO unit :=
  fun w => (inr tt,
            mkWorld (w_environ w) fs (w_dir_size w) (w_stderr w) (fs :: w_past w)).

Definition get_fs : IO (gmap Path node) := fun w => (inr (w_fs w), w).

(** [p.exists()]. *)
Definition exists_ (p : Path) : IO bool :=
  io fs <- get_fs; ret (bool_decide (is_Some (fs !! p))).

(** [p.stat().st_size]. *)
Definition st_size (p : Path) : IO N :=
  fun w =>
    match w_fs w !! p with
    | Some (File c) => (inr (N.of_nat (String.length c)), w)
    | Some Dir => (inr (w_dir_size w p), w)
    | None => (inl (OSError FileNotFoundError), w)
    end.

(** The bytes of a file opened for reading. *)
Definition read_bytes (p : Path) : IO string :=
  io fs <- get_fs;
  match fs !! p with
  | Some (File c) => ret c
  | Some Dir => raise (OSError IsADirectoryError)
  | None => raise (OSError FileNotFoundError)
  end.

(** [os.mkdir(p)]. *)
Definition mkdir (p : Path) : IO unit :=
  io fs <- get_fs;
  match fs !! p with
  | Some _ => raise (OSError FileExistsError)
  | None =>
      match fs !! Pathlib.parent p with
      | Some Dir => set_fs (<[p := Dir]> fs)
      | Some (File _) => raise (OSError NotADirectoryError)
      | None => raise (OSError FileNotFoundError)
      end
  end.

(** [open(p, "w")]: the file is created, or emptied when it exists. *)
Definition open_w (p : Path) : IO unit :=
  io fs <- get_fs;
  match fs !! p with
  | Some Dir => raise (OSError IsADirectoryError)
  | Some (File _) => set_fs (<[p := File ""]> fs)
  | None =>
      match fs !! Pathlib.parent p with
      | Some Dir => set_fs (<[p := File ""]> fs)
      | Some (File _) => raise (OSError NotADirectoryError)
      | None => raise (OSError FileNotFoundError)
      end
  end.

(** What was written to the open file [p] reaches the file system: the
    buffered writes are taken to arrive together, when the file is
    closed. *)
Definition flush (p : Path) (written : string) : IO unit :=
  io fs <- get_fs; set_fs (<[p := File written]> fs).

(** [os.replace(src, dst)]: one step of the file system, from which
    [dst] holds what [src] held and [src] is gone. [main] only calls it
    with the regular file it has just written as [src]. *)
Definition replace (src dst : Path) : IO unit :=
  io fs <- get_fs;
  match fs !! src with
  | None => raise (OSError FileNotFoundError)
  | Some Dir =>
      match fs !! dst with
      | Some (File _) => raise (OSError NotADirectoryError)
      | _ => set_fs (<[dst := Dir]> (delete src fs))
      end
  | Some (File c) =>
      match fs !! dst with
      | Some Dir => raise (OSError IsADirectoryError)
      | _ => set_fs (<[dst := File c]> (delete src fs))
      end
  end.

End OS.

(** ** Text files *)

Module Text.

Definition byte_in (lo hi : N) (b : ascii) : bool :=
  (lo <=? N_of_ascii b)%N && (N_of_ascii b <=? hi)%N.

Definition continuation (b : ascii) : bool := byte_in 128 191 b.

(** The second byte of a three-byte sequence: no overlong form after
    E0, no surrogate after ED. *)
Definition second_of_3 (b0 b1 : ascii) : bool :=
  if byte_in 224 224 b0 then byte_in 160 191 b1
  else if byte_in 237 237 b0 then byte_in 128 159 b1
  else continuation b1.

(** The second byte of a four-byte sequence: no overlong form after
    F0, nothing above U+10FFFF after F4. *)
Definition second_of_4 (b0 b1 : ascii) : bool :=
  if byte_in 240 240 b0 then byte_in 144 191 b1
  else if byte_in 244 244 b0 then byte_in 128 143 b1
  else continuation b1.

(** Whether the strict UTF-8 codec accepts the bytes. *)
Fixpoint utf8_valid (s : string) : bool :=
  match s with
  | EmptyString => true
  | String b0 r0 =>
      if byte_in 0 127 b0 then utf8_valid r0
      else
        match r0 with
        | EmptyString => false
        | String b1 r1 =>
            if byte_in 194 223 b0 then continuation b1 && utf8_valid r1
            else
              match r1 with
              | EmptyString => false
              | String b2 r2 =>
                  if byte_in 224 239 b0 then
                    second_of_3 b0 b1 && continuation b2 && utf8_valid r2
                  else
                    match r2 with
                    | EmptyString => false
                    | String b3 r3 =>
                        byte_in 240 244 b0 && second_of_4 b0 b1
                        && continuation b2 && continuation b3 && utf8_valid r3
                    end
              end
        end
  end.

(** Decoding with [encoding="utf-8"]: a [str] is kept as its UTF-8
    bytes, so decoding is the validity check. *)
Definition decode_utf8 (bytes : string) : exn + string :=
  if utf8_valid bytes then inr bytes else inl UnicodeDecodeError.

Definition cr : ascii := ascii_of_nat 13.
Definition lf : ascii := ascii_of_nat 10.

(** Reading in text mode turns "\r\n" and "\r" into "\n". *)
Fixpoint universal_newlines (s : string) : string :=
  match s with
  | EmptyString => EmptyString
  | String c r =>
      if Ascii.eqb c cr then
        match r with
        | String c' r' =>
            if Ascii.eqb c' lf then String lf (universal_newlines r')
            else String lf (universal_newlines r)
        | EmptyString => String lf EmptyString
        end
      else String c (universal_newlines r)
  end.

(** [path.open("r", encoding="utf-8")] followed by [fh.read()]. *)
Definition read (p : Path) : IO string :=
  io bytes <- OS.read_bytes p;
  io text <- lift (decode_utf8 bytes);
  ret (universal_newlines text).

End Text.

(** [try: body except E: handler], for the exceptions [E] that
    [handled] accepts. *)
Definition try_except {A : Type} (body : IO A) (handled : exn -> bool)
    (handler : exn -> IO A) : IO A :=
  fun w =>
    match body w with
    | (inl e, w') => if handled e then handler e w' else (inl e, w')
    | (inr a, w') => (inr a, w')
    end.

Definition is_JSONDecodeError (e : exn) : bool :=
  match e with
  | JSONDecodeError => true
  | _ => false
  end.

Definition is_FileNotFoundError (e : exn) : bool :=
  match e with
  | OSError FileNotFoundError => true
  | _ => false
  end.

Definition is_OSError (e : exn) : bool :=
  match e with
  | OSError _ => true
  | _ => false
  end.

(** [p.mkdir(exist_ok=True)]: an error of [os.mkdir] other than a missing
    parent is dropped when [p] is a directory, and raised again otherwise. *)
Definition mkdir_exist_ok (p : Path) : IO unit :=
  try_except (OS.mkdir p)
    (fun e => is_OSError e && negb (is_FileNotFoundError e))
    (fun e =>
       io fs <- OS.get_fs;
       match fs !! p with
       | Some Dir => ret tt
       | _ => raise e
       end).

(** [p.mkdir(parents=True, exist_ok=True)] for the path with root [root]
    and components [rev rparts]: a missing parent is made first, in the
    same way. *)
Fixpoint mkdir_parents (root : string) (rparts : list string) : IO unit :=
  let p := mkPath root (rev rparts) in
  try_except (mkdir_exist_ok p) is_FileNotFoundError
    (fun e =>
       match rparts with
       | [] => raise e
       | _ :: up => io _ <- mkdir_parents root up; mkdir_exist_ok p
       end).

(** ** The program *)

(** The required variables, in the order [main] reads them. *)
Definition required : list string :=
  [ "MANIFEST_PATH"; "NAME"; "GUID"; "OVERVIEW"; "DESCRIPTION"; "CATEGORY";
    "OWNER"; "IMAGE_URL"; "VERSION"; "TARGET_ABI"; "DOWNLOAD_URL"; "CHECKSUM";
    "TIMESTAMP" ].

(** [env(name)]. *)
Definition env (name : string) : IO string :=
  io value <- OS.environ_get name;
  match value with
  | None =>
      io _ <- OS.print_stderr ("Environment variable " +:+ name +:+ " is required");
      raise (SystemExit 6)
  | Some v => ret v
  end.

Section Program.

(** The two functions of the [json] module the program calls:
    [json.loads] on the text of the file, which raises
    [JSONDecodeError] on a text that is not JSON, and [json.dumps] with
    [indent]. *)
Variable json_loads : string -> exn + json.
Variable json_dumps : nat -> json -> string.

(** [load_manifest(path)]. *)
Definition load_manifest (path : Path) : IO (list json) :=
  io present <- OS.exists_ path;
  if negb present then ret []
  else
    io size <- OS.st_size path;
    if (size =? 0)%N then ret []
    else
      try_except
        (io text <- Text.read path;
         io data <- lift (json_loads text);
         match data with
         | JArr items => ret items
         | _ => ret [data]
         end)
        is_JSONDecodeError
        (fun _ => ret []).

(** The temporary file of [main]: [path.parent / f"{path.name}.tmp"]. *)
Definition tmp_path (path : Path) : Path :=
  Pathlib.div (Pathlib.parent path) (Pathlib.name path +:+ ".tmp").

(** What [main] writes to the temporary file. *)
Definition rendered (manifest : list json) : string :=
  json_dumps 2 (JArr manifest) +:+ newline.

(** Lines 70 to 75 of [main]. *)
Definition persist (path : Path) (manifest : list json) : IO unit :=
  let tmp := tmp_path path in
  let dir := Pathlib.parent tmp in
  io _ <- mkdir_parents (p_root dir) (rev (p_parts dir));
  io _ <- OS.open_w tmp;
  io _ <- OS.flush tmp (rendered manifest);
  OS.replace tmp path.

(** [main()]. *)
Definition main : IO unit :=
  io manifest_path <- env "MANIFEST_PATH";
  let path := Pathlib.of_string manifest_path in
  io name <- env "NAME";
  io guid <- env "GUID";
  io overview <- env "OVERVIEW";
  io description <- env "DESCRIPTION";
  io category <- env "CATEGORY";
  io owner <- env "OWNER";
  io image_url <- env "IMAGE_URL";
  io version <- env "VERSION";
  io target_abi <- env "TARGET_ABI";
  io download_url <- env "DOWNLOAD_URL";
  io checksum <- env "CHECKSUM";
  io timestamp <- env "TIMESTAMP";
  let f := mkFields name guid overview description category owner image_url
                    version target_abi download_url checksum timestamp in
  io manifest <- load_manifest path;
  io merged <- lift (merge f manifest);
  persist path merged.

End Program.

(** ** Vocabulary of the properties *)

Definition is_dict (x : json) : bool :=
  match x with
  | JObj _ => true
  | _ => false
  end.

(** The entry has a [guid] field equal to [g]: the test of line 57. *)
Definition has_guid (g : string) (x : json) : bool :=
  match x with
  | JObj d => Py.eq_str (Py.dict_get "guid" d) g
  | _ => false
  end.

(** The record has a [version] field equal to [ver]. *)
Definition has_version (ver : string) (x : json) : bool :=
  match x with
  | JObj d => Py.eq_str (Py.dict_get "version" d) ver
  | _ => false
  end.

(** The loop evaluated its test on the entry and went on: the entry is a
    dict whose [guid] is not [g]. *)
Definition passed_over (g : string) (x : json) : bool :=
  is_dict x && negb (has_guid g x).

(** The loop stops at the dict [d] that follows the entries [pre]: [d] is
    the matched entry. *)
Definition matched (g : string) (pre : list json) (d : dict) : bool :=
  forallb (passed_over g) pre && has_guid g (JObj d).

(** What the comprehension iterates over: the items of
    [entry.get("versions", [])]. *)
Definition prior_versions (d : dict) : exn + list json :=
  Py.iter (default (JArr []) (Py.dict_get "versions" d)).

(** The records other than those of version [ver], in their order. *)
Definition without_version (ver : string) (vs : list json) : list json :=
  List.filter (fun v => negb (has_version ver v)) vs.

(** The shape of an entry the merge has written: the descriptor fields
    set on some dict, then "versions" set to the new record followed by
    records of other versions. *)
Definition written (f : Fields) (d0 : dict) (vs : list json) : dict :=
  Py.dict_set "versions"
    (JArr (JObj (version_entry f) :: without_version (f_VERSION f) vs))
    (Py.dict_update d0 (plugin f)).

(** The seven descriptor keys and the eight keys the merge assigns. *)
Definition descriptor_keys : list string :=
  [ "name"; "guid"; "overview"; "description"; "category"; "owner"; "imageUrl" ].

Definition assigned_keys : list string := descriptor_keys ++ ["versions"].

(** The [version] value of a record, when it has one. *)
Definition version_of (v : json) : option json :=
  match v with
  | JObj d => Py.dict_get "version" d
  | _ => None
  end.

(** No two records of the entry's [versions] list have the same
    [version] value. *)
Definition versions_distinct (e : json) : Prop :=
  forall d vs,
    e = JObj d -> Py.dict_get "versions" d = Some (JArr vs) ->
    NoDup (omap version_of vs).

(** The first required variable that is not set. *)
Definition first_missing (environ : gmap string string) : option string :=
  List.find (fun name => bool_decide (environ !! name = None)) required.

(** The thirteen variables are set: MANIFEST_PATH to [p], the others to
    the fields of [f]. *)
Definition variables_set (environ : gmap string string) (p : string) (f : Fields) : Prop :=
  environ !! "MANIFEST_PATH" = Some p /\
  environ !! "NAME" = Some (f_NAME f) /\
  environ !! "GUID" = Some (f_GUID f) /\
  environ !! "OVERVIEW" = Some (f_OVERVIEW f) /\
  environ !! "DESCRIPTION" = Some (f_DESCRIPTION f) /\
  environ !! "CATEGORY" = Some (f_CATEGORY f) /\
  environ !! "OWNER" = Some (f_OWNER f) /\
  environ !! "IMAGE_URL" = Some (f_IMAGE_URL f) /\
  environ !! "VERSION" = Some (f_VERSION f) /\
  environ !! "TARGET_ABI" = Some (f_TARGET_ABI f) /\
  environ !! "DOWNLOAD_URL" = Some (f_DOWNLOAD_URL f) /\
  environ !! "CHECKSUM" = Some (f_CHECKSUM f) /\
  environ !! "TIMESTAMP" = Some (f_TIMESTAMP f).

(** The string holds no "/". *)
Fixpoint no_slash (s : string) : bool :=
  match s with
  | EmptyString => true
  | String c r => negb (Ascii.eqb c Pathlib.slash) && no_slash r
  end.

(** A path as [Path(s)] builds it: no component holds a "/". *)
Definition well_formed (p : Path) : Prop :=
  Forall (fun c => no_slash c = true) (p_parts p).

(** The path has components, at most [n] of them. *)
Definition shallow (n : nat) (q : Path) : Prop :=
  p_parts q <> [] /\ length (p_parts q) <= n.

(** [w'] comes from [w] by changes of the file system only, which at
    every step left the paths outside [K] as they were. *)
Definition touches_only (K : Path -> Prop) (w w' : World) : Prop :=
  w_environ w' = w_environ w /\
  w_dir_size w' = w_dir_size w /\
  w_stderr w' = w_stderr w /\
  (forall q, ~ K q -> w_fs w' !! q = w_fs w !! q) /\
  exists states,
    w_past w' = states ++ w_past w /\
    Forall (fun fs => forall q, ~ K q -> fs !! q = w_fs w !! q) states.

Definition confined {A : Type} (K : Path -> Prop) (m : IO A) : Prop :=
  forall w, touches_only K w (snd (m w)).

(** The directory with root [root] and components [rev rparts] is there,
    or can be made: it is missing below a directory that is there or can
    be made. *)
Fixpoint dirs_ok (fs : gmap Path node) (root : string) (rparts : list string) : bool :=
  match fs !! mkPath root (rev rparts) with
  | Some Dir => true
  | Some (File _) => false
  | None =>
      match rparts with
      | [] => false
      | _ :: up => dirs_ok fs root up
      end
  end.

Definition is_dir_at (fs : gmap Path node) (p : Path) : bool :=
  match fs !! p with
  | Some Dir => true
  | _ => false
  end.

(** The file system lets the manifest be written at [path]: its directory
    is there or can be made, and neither [path] nor the temporary path is
    a directory. *)
Definition can_persist (fs : gmap Path node) (path : Path) : bool :=
  let dir := Pathlib.parent (tmp_path path) in
  dirs_ok fs (p_root dir) (rev (p_parts dir))
  && negb (is_dir_at fs path)
  && negb (is_dir_at fs (tmp_path path)).

(** The paths [persist] may change before it replaces [path]: the
    directories above the temporary path, and the temporary path. *)
Definition scratch (path : Path) (q : Path) : Prop :=
  shallow (length (p_parts (Pathlib.parent (tmp_path path)))) q \/ q = tmp_path path.

(** The world after the message of [env] for [name] and no other change. *)
Definition complained (name : string) (w : World) : World :=
  mkWorld (w_environ w) (w_fs w) (w_dir_size w)
          (w_stderr w ++ [("Environment variable " +:+ name +:+ " is required") +:+ newline])
          (w_past w).

(** ** Sample values *)

Definition sample_fields : Fields :=
  mkFields "JellyTV" "g-1" "overview" "description" "General" "owner" "img.png"
           "1.0" "10.9.0.0" "https://example.org/p.zip" "abc" "2024-01-01".

(** A record of version [ver] with a checksum of its own. *)
Definition sample_record (ver sum : string) : json :=
  JObj [ ("version", JStr ver); ("checksum", JStr sum) ].

(** Three entries, the second one of the submitted guid, with a key of
    its own and two versions. *)
Definition sample_entry_A : json := JObj [ ("guid", JStr "g-0"); ("name", JStr "A") ].

Definition sample_dict_B : dict :=
  [ ("homepage", JStr "https://example.org");
    ("guid", JStr "g-1");
    ("name", JStr "old name");
    ("versions", JArr [ sample_record "2.0" "s2"; sample_record "1.0" "s1" ]) ].

Definition sample_entry_C : json := JObj [ ("guid", JStr "g-2") ].

(** A parser that rejects every text, and a serialiser that writes
    nothing: stand-ins for [json.loads] and [json.dumps] where a sample
    run does not depend on them. *)
Definition reject_all (text : string) : exn + json := inl JSONDecodeError.

Definition dump_nothing (indent : nat) (v : json) : string := "".

(** A parser that knows two texts. *)
Definition sample_loads (text : string) : exn + json :=
  if String.eqb text "[]" then inr (JArr [])
  else if String.eqb text "{}" then inr (JObj [])
  else inl JSONDecodeError.

Definition sample_path : Path := Pathlib.of_string "dist/manifest.json".

(** A process with the given variables and the given bytes in the
    manifest file, in an existing directory. *)
Definition sample_world (vars : list (string * string)) (bytes : string) : World :=
  mkWorld (list_to_map vars)
          (<[sample_path := File bytes]>
             (<[Pathlib.of_string "dist" := Dir]> (<[Pathlib.of_string "" := Dir]> ∅)))
          (fun _ => 4096%N) [] [].

(** All the variables but [CHECKSUM]. *)
Definition sample_vars_no_checksum : list (string * string) :=
  [ ("MANIFEST_PATH", "dist/manifest.json"); ("NAME", "JellyTV"); ("GUID", "g-1");
    ("OVERVIEW", "overview"); ("DESCRIPTION", "description");
    ("CATEGORY", "General"); ("OWNER", "owner"); ("IMAGE_URL", "img.png");
    ("VERSION", "1.0"); ("TARGET_ABI", "10.9.0.0");
    ("DOWNLOAD_URL", "https://example.org/p.zip"); ("TIMESTAMP", "2024-01-01") ].

(** A serialiser that knows the empty list. *)
Definition sample_dumps (indent : nat) (v : json) : string :=
  match v with
  | JArr [] => "[]"
  | _ => "?"
  end.

(** A process in a working directory that holds nothing. *)
Definition bare_world : World :=
  mkWorld ∅ (<[Pathlib.of_string "" := Dir]> ∅) (fun _ => 4096%N) [] [].

(** All the variables, for [sample_fields]. *)
Definition sample_vars : list (string * string) :=
  ("CHECKSUM", "abc") :: sample_vars_no_checksum.

(** A byte that no UTF-8 text contains. *)
Definition byte_ff : string := String (ascii_of_nat 255) EmptyString.

(** ** Vocabulary of the further properties *)

(** The [guid] value of an entry, when it has one. *)
Definition guid_of (e : json) : option json :=
  match e with
  | JObj d => Py.dict_get "guid" d
  | _ => None
  end.

(** The entry the merge leaves in the place of the matched dict [d]. *)
Definition merged_entry (f : Fields) (d : dict) (vs : list json) : json :=
  JObj (written f d vs).

(** Every world [m] leaves is related by [R] to the world it starts in. *)
Definition keeps {A : Type} (R : World -> World -> Prop) (m : IO A) : Prop :=
  forall w, R w (snd (m w)).

(** [m] raises no exception but those [P] accepts. *)
Definition raises_only {A : Type} (P : exn -> bool) (m : IO A) : Prop :=
  forall w e, fst (m w) = inl e -> P e = true.

(** The steps of [persist] before the replacement, for the text to write. *)
Definition prepare (path : Path) (text : string) : IO unit :=
  io _ <- mkdir_parents (p_root (Pathlib.parent (tmp_path path)))
            (rev (p_parts (Pathlib.parent (tmp_path path))));
  io _ <- OS.open_w (tmp_path path);
  OS.flush (tmp_path path) text.



(** From [w] to [w'], the file system went through states that hold at
    [path] what [w] held there or the file [new], and [w'] holds one of
    the two: what [w] held when [ok] is false, [new] when it is true. *)
Definition target_history (path : Path) (new : node) (ok : bool) (w w' : World) : Prop :=
  (exists states,
     w_past w' = states ++ w_past w /\
     Forall (fun fs => fs !! path = w_fs w !! path \/ fs !! path = Some new) states) /\
  w_fs w' !! path = (if ok then Some new else w_fs w !! path).

(** The exceptions [load_manifest] lets through, for the parser [loads]. *)
Definition load_exception (loads : string -> exn + json) (e : exn) : Prop :=
  e = UnicodeDecodeError \/ e = OSError IsADirectoryError \/
  (e <> JSONDecodeError /\ exists text, loads text = inl e).

(** The computation returned. *)
Definition returned {A : Type} (r : exn + A) : bool :=
  match r with
  | inr _ => true
  | inl _ => false
  end.

(** From [w] to [w'], nothing was printed and no variable changed. *)
Definition quiet (w w' : World) : Prop :=
  w_stderr w' = w_stderr w /\ w_environ w' = w_environ w.

(** * Properties *)

(** ** Dicts *)

Section DictFacts.

Import Py.

Lemma dict_get_set_eq k v d : dict_get k (dict_set k v d) = Some v.
Proof.
  induction d as [|[k' v'] r IH]; simpl.
  - by rewrite String.eqb_refl.
  - destruct (String.eqb k' k) eqn:E; simpl; rewrite E; auto.
Qed.

Lemma dict_get_set_ne k k' v d :
  k <> k' -> dict_get k' (dict_set k v d) = dict_get k' d.
Proof.
  intros Hne. induction d as [|[k0 v0] r IH]; simpl.
  - apply String.eqb_neq in Hne. by rewrite Hne.
  - destruct (String.eqb k0 k) eqn:E; simpl.
    + apply String.eqb_eq in E. subst k0.
      apply String.eqb_neq in Hne. by rewrite Hne.
    + by rewrite IH.
Qed.

(** Setting a key never changes the order of the keys already there. *)
Lemma dict_set_keys k v d :
  map fst (dict_set k v d) =
    if bool_decide (k ∈ map fst d) then map fst d else map fst d ++ [k].
Proof.
  induction d as [|[k' v'] r IH]; simpl; first done.
  destruct (String.eqb k' k) eqn:E; simpl.
  - apply String.eqb_eq in E. subst k'.
    rewrite bool_decide_eq_true_2; [done | left].
  - apply String.eqb_neq in E. rewrite IH.
    destruct (bool_decide (k ∈ map fst r)) eqn:D.
    + apply bool_decide_eq_true_1 in D.
      rewrite bool_decide_eq_true_2; [done | by right].
    + apply bool_decide_eq_false_1 in D.
      rewrite bool_decide_eq_false_2; [done |].
      intros [?|?]%elem_of_cons; [congruence | done].
Qed.

Lemma dict_get_update_other k d other :
  k ∉ map fst other -> dict_get k (dict_update d other) = dict_get k d.
Proof.
  unfold dict_update. revert d.
  induction other as [|[k' v'] r IH]; intros d Hk; simpl; first done.
  rewrite IH.
  - apply dict_get_set_ne. intros ->. apply Hk. simpl. left.
  - intros ?. apply Hk. simpl. by right.
Qed.

(** After [d.update(other)], a key of [other] holds the value of its
    last binding in [other]. *)
Lemma dict_get_update_in k v d other :
  dict_get k (rev other) = Some v -> dict_get k (dict_update d other) = Some v.
Proof.
  unfold dict_update. revert d.
  induction other as [|[k' v'] r IH] using rev_ind; intros d; first done.
  rewrite rev_app_distr, fold_left_app. simpl.
  destruct (String.eqb k' k) eqn:E.
  - apply String.eqb_eq in E. subst k'. intros [= ->]. apply dict_get_set_eq.
  - intros H. apply String.eqb_neq in E.
    rewrite dict_get_set_ne by done. by apply IH.
Qed.

(** [d.update(other)] keeps the keys of [d] in their order. *)
Lemma dict_update_keys_prefix d other :
  exists added, map fst (dict_update d other) = map fst d ++ added.
Proof.
  unfold dict_update. revert d.
  induction other as [|[k v] r IH]; intros d; simpl.
  - exists []. by rewrite app_nil_r.
  - destruct (IH (dict_set k v d)) as [added ->].
    rewrite dict_set_keys. case_bool_decide.
    + by exists added.
    + exists (k :: added). by rewrite <- app_assoc.
Qed.

End DictFacts.

(** ** The loop *)

Section MergeFacts.

Import Py.

Variable f : Fields.

Lemma plugin_keys : map fst (plugin f) = descriptor_keys.
Proof. reflexivity. Qed.

(** [entry.update(plugin)] does not touch ["versions"]. *)
Lemma update_plugin_versions d :
  dict_get "versions" (dict_update d (plugin f)) = dict_get "versions" d.
Proof.
  apply dict_get_update_other. rewrite plugin_keys.
  unfold descriptor_keys. rewrite !elem_of_cons, elem_of_nil.
  intros H. repeat (destruct H as [H|H]; [discriminate H|]). exact H.
Qed.

Lemma keep_other_versions_dicts ver vs :
  forallb is_dict vs = true ->
  keep_other_versions ver vs = inr (without_version ver vs).
Proof.
  induction vs as [|v r IH]; simpl; first done.
  intros [Hv Hr]%andb_prop. rewrite (IH Hr).
  destruct v; try discriminate Hv. simpl.
  by destruct (eq_str _ _).
Qed.

Lemma keep_other_versions_inv ver vs kept :
  keep_other_versions ver vs = inr kept ->
  forallb is_dict vs = true /\ kept = without_version ver vs.
Proof.
  revert kept. induction vs as [|v r IH]; simpl; intros kept H.
  - by injection H as <-.
  - destruct v; try discriminate H. simpl in H.
    destruct (keep_other_versions ver r) as [e|rest]; first discriminate H.
    destruct (IH rest eq_refl) as [-> ->]. simpl in H. split; first done.
    simpl. injection H as <-. by destruct (eq_str _ _).
Qed.

Lemma update_entry_ok d vs :
  prior_versions d = inr vs ->
  forallb is_dict vs = true ->
  update_entry f d =
    inr (dict_set "versions"
           (JArr (JObj (version_entry f) :: without_version (f_VERSION f) vs))
           (dict_update d (plugin f))).
Proof.
  intros Hvs Hd. unfold update_entry, prior_versions in *.
  rewrite update_plugin_versions, Hvs. simpl.
  by rewrite (keep_other_versions_dicts _ _ Hd).
Qed.

Lemma update_entry_inv d d' :
  update_entry f d = inr d' ->
  exists vs,
    prior_versions d = inr vs /\ forallb is_dict vs = true /\
    d' = dict_set "versions"
           (JArr (JObj (version_entry f) :: without_version (f_VERSION f) vs))
           (dict_update d (plugin f)).
Proof.
  unfold update_entry, prior_versions. rewrite update_plugin_versions.
  destruct (iter _) as [e|vs]; first discriminate. simpl.
  destruct (keep_other_versions _ vs) as [e|kept] eqn:K; first discriminate.
  simpl. intros [= <-]. apply keep_other_versions_inv in K as [Hd ->].
  by exists vs.
Qed.

Lemma scan_passed_over M :
  forallb (passed_over (f_GUID f)) M = true -> scan f M = inr None.
Proof.
  induction M as [|e r IH]; simpl; first done.
  intros [He Hr]%andb_prop. rewrite (IH Hr).
  unfold passed_over in He. destruct e; try discriminate He. simpl in He.
  by destruct (eq_str _ _).
Qed.

Lemma scan_matched pre d post :
  matched (f_GUID f) pre d = true ->
  scan f (pre ++ JObj d :: post) =
    do d' <- update_entry f d; inr (Some (pre ++ JObj d' :: post)).
Proof.
  unfold matched. intros [Hpre Hd]%andb_prop. simpl in Hd.
  induction pre as [|e r IH]; simpl.
  - by rewrite Hd.
  - simpl in Hpre. apply andb_prop in Hpre as [He Hr]. rewrite (IH Hr).
    unfold passed_over in He. destruct e; try discriminate He. simpl in He.
    destruct (eq_str _ _); first discriminate He.
    by destruct (update_entry f d).
Qed.

Lemma scan_inv M r :
  scan f M = inr r ->
  match r with
  | None => forallb (passed_over (f_GUID f)) M = true
  | Some M' =>
      exists pre d post d',
        M = pre ++ JObj d :: post /\ matched (f_GUID f) pre d = true /\
        update_entry f d = inr d' /\ M' = pre ++ JObj d' :: post
  end.
Proof.
  revert r. induction M as [|e rest IH]; simpl; intros r H.
  - by injection H as <-.
  - destruct e; try discriminate H.
    destruct (eq_str (dict_get "guid" fields) (f_GUID f)) eqn:G.
    + destruct (update_entry f fields) as [x|d'] eqn:U; first discriminate H.
      simpl in H. injection H as <-.
      exists [], fields, rest, d'. unfold matched. simpl. by rewrite G.
    + destruct (scan f rest) as [x|r0]; first discriminate H.
      simpl in H. injection H as <-. specialize (IH r0 eq_refl).
      destruct r0 as [M'|]; simpl.
      * destruct IH as (pre & d & post & d' & -> & Hm & U & ->).
        exists (JObj fields :: pre), d, post, d'. repeat split; try done.
        unfold matched in *. simpl. unfold passed_over at 1. simpl.
        by rewrite G.
      * unfold passed_over at 1. simpl. by rewrite G.
Qed.

Lemma merge_matched pre d post :
  matched (f_GUID f) pre d = true ->
  merge f (pre ++ JObj d :: post) =
    do d' <- update_entry f d; inr (pre ++ JObj d' :: post).
Proof.
  intros H. unfold merge. rewrite (scan_matched _ _ _ H).
  by destruct (update_entry f d).
Qed.

Lemma merge_passed_over M :
  forallb (passed_over (f_GUID f)) M = true ->
  merge f M = inr (M ++ [new_entry f]).
Proof. intros H. unfold merge. by rewrite (scan_passed_over _ H). Qed.

End MergeFacts.

(** ** The merge of a submission into a manifest *)

(** C1, as the code has it: when the entries before the first one of the
    submitted guid are all dicts, and what that entry holds under
    "versions" (nothing, or a value that can be iterated) yields dicts
    only, the merge returns the manifest with that one entry replaced, at
    its place, by an entry that holds the seven submitted descriptor
    values; [entry.update(plugin)] leaves "versions" as it was, and the
    entries before and after are the same. *)
Theorem merge_updates_first_match_in_place f pre d post vs :
  forallb (fun e => negb (has_guid (f_GUID f) e)) pre = true ->
  has_guid (f_GUID f) (JObj d) = true ->
  forallb is_dict pre = true ->
  prior_versions d = inr vs ->
  forallb is_dict vs = true ->
  exists d',
    merge f (pre ++ JObj d :: post) = inr (pre ++ JObj d' :: post) /\
    (forall k v, In (k, v) (plugin f) -> Py.dict_get k d' = Some v) /\
    Py.dict_get "versions" (Py.dict_update d (plugin f)) = Py.dict_get "versions" d /\
    d' = Py.dict_set "versions"
           (JArr (JObj (version_entry f) :: without_version (f_VERSION f) vs))
           (Py.dict_update d (plugin f)).
Proof.
  intros Hno Hd Hpre Hvs Hrec.
  assert (Hm : matched (f_GUID f) pre d = true).
  { unfold matched. rewrite Hd, andb_true_r.
    apply forallb_forall. intros e He. unfold passed_over.
    rewrite forallb_forall in Hno, Hpre.
    by rewrite (Hno e He), (Hpre e He). }
  eexists. split; [|split; [|split; [|reflexivity]]].
  - rewrite (merge_matched _ _ _ _ Hm), (update_entry_ok _ _ _ Hvs Hrec).
    reflexivity.
  - intros k v Hin.
    assert (Hk : k <> "versions").
    { intros ->. simpl in Hin.
      repeat (destruct Hin as [Hin|Hin]; [discriminate Hin|]). exact Hin. }
    rewrite dict_get_set_ne by congruence.
    apply dict_get_update_in. simpl in Hin.
    repeat (destruct Hin as [Hin|Hin]; [by injection Hin as <- <-|]).
    destruct Hin.
  - apply update_plugin_versions.
Qed.

Lemma merge_updates_first_match_in_place_witness :
  merge sample_fields [sample_entry_A; JObj sample_dict_B; sample_entry_C] =
    inr [ sample_entry_A;
          JObj [ ("homepage", JStr "https://example.org");
                 ("guid", JStr "g-1");
                 ("name", JStr "JellyTV");
                 ("versions",
                  JArr [ JObj (version_entry sample_fields); sample_record "2.0" "s2" ]);
                 ("overview", JStr "overview");
                 ("description", JStr "description");
                 ("category", JStr "General");
                 ("owner", JStr "owner");
                 ("imageUrl", JStr "img.png") ];
          sample_entry_C ].
Proof.
  destruct (merge_updates_first_match_in_place sample_fields
              [sample_entry_A] sample_dict_B [sample_entry_C]
              [sample_record "2.0" "s2"; sample_record "1.0" "s1"]
              eq_refl eq_refl eq_refl eq_refl eq_refl)
    as (d' & Hmerge & _ & _ & ->).
  exact Hmerge.
Defined.

(** C1, as the claim states it, fails on two manifests that hold an entry
    of the submitted guid: an entry before it that is not a dict makes
    [entry.get] raise, and a matched entry whose "versions" is [null]
    makes the comprehension raise. *)
Lemma merge_raises_on_malformed_manifest :
  existsb (has_guid "g-1") [JInt 5; JObj [("guid", JStr "g-1")]] = true /\
  merge sample_fields [JInt 5; JObj [("guid", JStr "g-1")]] = inl AttributeError /\
  existsb (has_guid "g-1") [JObj [("guid", JStr "g-1"); ("versions", JNull)]] = true /\
  merge sample_fields [JObj [("guid", JStr "g-1"); ("versions", JNull)]] = inl TypeError.
Proof. repeat split. Qed.

(** C2, as the code has it: when what the matched entry holds under
    "versions" (nothing, or a value that can be iterated) yields dicts
    only, the new "versions" list is the new record followed by the prior
    records whose version is not the submitted one, in their order. With
    prior records [v2; v1] and a submission of the version of [v1], the
    list is [new; v2]. *)
Theorem merge_prepends_version_record f pre d post vs :
  matched (f_GUID f) pre d = true ->
  prior_versions d = inr vs ->
  forallb is_dict vs = true ->
  exists d',
    merge f (pre ++ JObj d :: post) = inr (pre ++ JObj d' :: post) /\
    Py.dict_get "versions" d' =
      Some (JArr (JObj (version_entry f) :: without_version (f_VERSION f) vs)) /\
    (forall v2 v1,
        vs = [v2; v1] ->
        has_version (f_VERSION f) v1 = true ->
        has_version (f_VERSION f) v2 = false ->
        Py.dict_get "versions" d' = Some (JArr [JObj (version_entry f); v2])).
Proof.
  intros Hm Hvs Hrec. eexists. split; [|split].
  - rewrite (merge_matched _ _ _ _ Hm), (update_entry_ok _ _ _ Hvs Hrec).
    reflexivity.
  - apply dict_get_set_eq.
  - intros v2 v1 -> H1 H2. rewrite dict_get_set_eq.
    unfold without_version. simpl. by rewrite H1, H2.
Qed.

Lemma merge_prepends_version_record_witness :
  exists d',
    merge sample_fields [sample_entry_A; JObj sample_dict_B; sample_entry_C] =
      inr [sample_entry_A; JObj d'; sample_entry_C] /\
    Py.dict_get "versions" d' =
      Some (JArr [JObj (version_entry sample_fields); sample_record "2.0" "s2"]).
Proof.
  destruct (merge_prepends_version_record sample_fields
              [sample_entry_A] sample_dict_B [sample_entry_C]
              [sample_record "2.0" "s2"; sample_record "1.0" "s1"]
              eq_refl eq_refl eq_refl)
    as (d' & Hmerge & _ & Hex).
  exists d'. split; [exact Hmerge|].
  exact (Hex _ _ eq_refl eq_refl eq_refl).
Defined.

(** C2, as the claim states it, fails on a matched entry whose "versions"
    list holds a version string instead of a record, since [v.get] raises
    on a str, and on one whose "versions" is [null], which cannot be
    iterated. *)
Lemma merge_raises_on_malformed_versions :
  matched "g-1" [] [("guid", JStr "g-1"); ("versions", JArr [JStr "0.9"])] = true /\
  merge sample_fields [JObj [("guid", JStr "g-1"); ("versions", JArr [JStr "0.9"])]] =
    inl AttributeError /\
  matched "g-1" [] [("guid", JStr "g-1"); ("versions", JNull)] = true /\
  merge sample_fields [JObj [("guid", JStr "g-1"); ("versions", JNull)]] =
    inl TypeError.
Proof. repeat split. Qed.

(** C3, as the code has it: when every entry is a dict and none has the
    submitted guid (the empty manifest included), the merge returns the
    manifest followed by one new entry: the seven descriptor fields and a
    "versions" list holding the new record alone. *)
Theorem merge_appends_new_entry f M :
  forallb (fun e => negb (has_guid (f_GUID f) e)) M = true ->
  forallb is_dict M = true ->
  merge f M = inr (M ++ [new_entry f]) /\
  new_entry f = JObj (plugin f ++ [("versions", JArr [JObj (version_entry f)])]).
Proof.
  intros Hno Hd. split; [|reflexivity].
  apply merge_passed_over, forallb_forall. intros e He.
  rewrite forallb_forall in Hno, Hd. unfold passed_over.
  by rewrite (Hno e He), (Hd e He).
Qed.

Lemma merge_appends_new_entry_witness :
  merge sample_fields [] = inr [new_entry sample_fields] /\
  merge sample_fields [sample_entry_A; sample_entry_C] =
    inr [sample_entry_A; sample_entry_C; new_entry sample_fields].
Proof.
  split.
  - exact (proj1 (merge_appends_new_entry sample_fields [] eq_refl eq_refl)).
  - exact (proj1 (merge_appends_new_entry sample_fields
                    [sample_entry_A; sample_entry_C] eq_refl eq_refl)).
Defined.

(** C3, as the claim states it, fails on the manifest [[null]], which is
    what the load returns for a file that holds [null]: no entry has the
    submitted guid, and [entry.get] raises. *)
Lemma merge_raises_on_entry_without_get :
  forallb (fun e => negb (has_guid "g-1" e)) [JNull] = true /\
  merge sample_fields [JNull] = inl AttributeError.
Proof. split; reflexivity. Qed.

(** C9: the keys of the matched entry other than the seven descriptor
    keys and "versions" hold after the merge what they held before;
    [entry.update(plugin)] changes no key but the seven, and the keys the
    entry had keep their order. *)
Theorem merge_preserves_other_keys f pre d post M' :
  matched (f_GUID f) pre d = true ->
  merge f (pre ++ JObj d :: post) = inr M' ->
  exists d',
    M' = pre ++ JObj d' :: post /\
    (forall k, ~ In k assigned_keys -> Py.dict_get k d' = Py.dict_get k d) /\
    (forall k, ~ In k descriptor_keys ->
               Py.dict_get k (Py.dict_update d (plugin f)) = Py.dict_get k d) /\
    (exists added, map fst d' = map fst d ++ added).
Proof.
  intros Hm. rewrite (merge_matched _ _ _ _ Hm).
  destruct (update_entry f d) as [e|d'] eqn:U; [discriminate|].
  unfold bind_exn. intros [= <-]. exists d'.
  apply update_entry_inv in U as (vs & _ & _ & ->).
  assert (Hframe : forall k, ~ In k descriptor_keys ->
            Py.dict_get k (Py.dict_update d (plugin f)) = Py.dict_get k d).
  { intros k Hk. apply dict_get_update_other.
    rewrite plugin_keys. by rewrite list_elem_of_In. }
  split; [reflexivity|split; [|split; [exact Hframe|]]].
  - intros k Hk. unfold assigned_keys in Hk. rewrite in_app_iff in Hk.
    rewrite dict_get_set_ne.
    + apply Hframe. tauto.
    + intros <-. apply Hk. right. by left.
  - rewrite dict_set_keys.
    destruct (dict_update_keys_prefix d (plugin f)) as [added ->].
    case_bool_decide.
    + by exists added.
    + exists (added ++ ["versions"]). by rewrite app_assoc.
Qed.

Lemma merge_preserves_other_keys_witness :
  exists d',
    merge sample_fields [sample_entry_A; JObj sample_dict_B; sample_entry_C] =
      inr [sample_entry_A; JObj d'; sample_entry_C] /\
    Py.dict_get "homepage" d' = Some (JStr "https://example.org").
Proof.
  destruct (merge_preserves_other_keys sample_fields
              [sample_entry_A] sample_dict_B [sample_entry_C] _
              eq_refl eq_refl)
    as (d' & Heq & Hkeys & _ & _).
  exists d'. split.
  - simpl in Heq. rewrite <- Heq. reflexivity.
  - rewrite Hkeys; [reflexivity|].
    unfold assigned_keys, descriptor_keys. simpl.
    intros H. repeat (destruct H as [H|H]; [discriminate H|]). exact H.
Defined.

(** C10: a matched entry without a "versions" key ends with a "versions"
    list that holds the new record alone; and whenever the merge returns,
    every prior record that is a dict without a "version" key is in the
    new list: its [v.get("version")] is [None], which is not equal to the
    submitted version. *)
Theorem merge_defaults_missing_fields f pre d post :
  matched (f_GUID f) pre d = true ->
  (Py.dict_get "versions" d = None ->
   exists d',
     merge f (pre ++ JObj d :: post) = inr (pre ++ JObj d' :: post) /\
     Py.dict_get "versions" d' = Some (JArr [JObj (version_entry f)])) /\
  (forall r, Py.dict_get "version" r = None ->
             Py.get (JObj r) "version" = inr None /\
             Py.eq_str None (f_VERSION f) = false) /\
  (forall vs M',
     prior_versions d = inr vs ->
     merge f (pre ++ JObj d :: post) = inr M' ->
     exists d' kept,
       M' = pre ++ JObj d' :: post /\
       Py.dict_get "versions" d' = Some (JArr (JObj (version_entry f) :: kept)) /\
       forall r, In (JObj r) vs -> Py.dict_get "version" r = None -> In (JObj r) kept).
Proof.
  intros Hm. split; [|split].
  - intros Hnone.
    assert (Hvs : prior_versions d = inr []).
    { unfold prior_versions. by rewrite Hnone. }
    eexists. split.
    + rewrite (merge_matched _ _ _ _ Hm), (update_entry_ok _ _ _ Hvs eq_refl).
      reflexivity.
    + apply dict_get_set_eq.
  - intros r Hr. simpl. by rewrite Hr.
  - intros vs M' Hvs. rewrite (merge_matched _ _ _ _ Hm).
    destruct (update_entry f d) as [e|d'] eqn:U; [discriminate|].
    unfold bind_exn. intros [= <-].
    apply update_entry_inv in U as (vs' & Hvs' & _ & ->).
    assert (vs' = vs) as -> by congruence.
    eexists. exists (without_version (f_VERSION f) vs).
    split; [reflexivity|split].
    + apply dict_get_set_eq.
    + intros r Hin Hr. unfold without_version. apply filter_In.
      split; [exact Hin|]. simpl. by rewrite Hr.
Qed.

Lemma merge_defaults_missing_fields_witness :
  (exists d',
     merge sample_fields [JObj [("guid", JStr "g-1")]] = inr [JObj d'] /\
     Py.dict_get "versions" d' = Some (JArr [JObj (version_entry sample_fields)])) /\
  (exists d' kept,
     merge sample_fields
       [JObj [("guid", JStr "g-1"); ("versions", JArr [JObj [("checksum", JStr "s0")]])]] =
       inr [JObj d'] /\
     Py.dict_get "versions" d' = Some (JArr (JObj (version_entry sample_fields) :: kept)) /\
     In (JObj [("checksum", JStr "s0")]) kept).
Proof.
  split.
  - exact (proj1 (merge_defaults_missing_fields sample_fields []
                    [("guid", JStr "g-1")] [] eq_refl) eq_refl).
  - destruct (proj2 (proj2 (merge_defaults_missing_fields sample_fields []
                       [("guid", JStr "g-1");
                        ("versions", JArr [JObj [("checksum", JStr "s0")]])]
                       [] eq_refl)) _ _ eq_refl eq_refl)
      as (d' & kept & Heq & Hget & Hkept).
    exists d', kept. split; [|split; [exact Hget|]].
    + simpl in Heq. rewrite <- Heq. reflexivity.
    + apply Hkept; [by left|reflexivity].
Defined.

(** ** Merging again *)

Section Again.

Import Py.

Variable f : Fields.

Lemma dict_set_same k v d : dict_get k d = Some v -> dict_set k v d = d.
Proof.
  induction d as [|[k' v'] r IH]; simpl; first done.
  destruct (String.eqb k' k); intros H.
  - by injection H as ->.
  - by rewrite (IH H).
Qed.

Lemma dict_set_twice k v v' d : dict_set k v (dict_set k v' d) = dict_set k v d.
Proof.
  induction d as [|[k0 v0] r IH]; simpl.
  - by rewrite String.eqb_refl.
  - destruct (String.eqb k0 k) eqn:E; simpl; rewrite E; [done|by rewrite IH].
Qed.

(** [d.update(other)] changes nothing when [d] already holds the bindings
    of [other]. *)
Lemma dict_update_same d other :
  (forall k v, In (k, v) other -> dict_get k d = Some v) ->
  dict_update d other = d.
Proof.
  unfold dict_update. induction other as [|[k v] r IH]; simpl; first done.
  intros H. rewrite dict_set_same.
  - apply IH. intros k' v' Hin. apply H. by right.
  - apply H. by left.
Qed.

Lemma without_version_twice ver vs :
  without_version ver (without_version ver vs) = without_version ver vs.
Proof.
  unfold without_version. induction vs as [|v r IH]; simpl; first done.
  destruct (has_version ver v) eqn:E; simpl; [done|]. by rewrite E, IH.
Qed.

Lemma without_version_none ver vs :
  List.filter (has_version ver) (without_version ver vs) = [].
Proof.
  unfold without_version. induction vs as [|v r IH]; simpl; first done.
  destruct (has_version ver v) eqn:E; simpl; [done|]. by rewrite E.
Qed.

Lemma without_version_dicts ver vs :
  forallb is_dict vs = true -> forallb is_dict (without_version ver vs) = true.
Proof.
  unfold without_version. induction vs as [|v r IH]; simpl; first done.
  intros [Hv Hr]%andb_prop. destruct (negb _); simpl; [rewrite Hv|]; auto.
Qed.

Lemma written_descriptor d0 vs k v :
  In (k, v) (plugin f) -> dict_get k (written f d0 vs) = Some v.
Proof.
  intros Hin. unfold written.
  assert (Hk : k <> "versions").
  { intros ->. simpl in Hin.
    repeat (destruct Hin as [Hin|Hin]; [discriminate Hin|]). exact Hin. }
  rewrite dict_get_set_ne by congruence.
  apply dict_get_update_in. simpl in Hin.
  repeat (destruct Hin as [Hin|Hin]; [by injection Hin as <- <-|]).
  destruct Hin.
Qed.

Lemma written_has_guid d0 vs : has_guid (f_GUID f) (JObj (written f d0 vs)) = true.
Proof.
  simpl. rewrite (written_descriptor d0 vs "guid" (JStr (f_GUID f))).
  - simpl. apply String.eqb_refl.
  - simpl. tauto.
Qed.

(** Updating a written entry with the same submission gives it back. *)
Lemma update_entry_written d0 vs :
  forallb is_dict vs = true ->
  update_entry f (written f d0 vs) = inr (written f d0 vs).
Proof.
  intros Hrec.
  assert (Hvs : prior_versions (written f d0 vs) =
                inr (JObj (version_entry f) :: without_version (f_VERSION f) vs)).
  { unfold prior_versions, written. by rewrite dict_get_set_eq. }
  rewrite (update_entry_ok _ _ _ Hvs).
  - f_equal. rewrite (dict_update_same (written f d0 vs)).
    + unfold written. rewrite dict_set_twice. do 3 f_equal.
      unfold without_version at 1. simpl.
      rewrite String.eqb_refl. simpl. apply without_version_twice.
    + intros k v. apply written_descriptor.
  - simpl. by apply without_version_dicts.
Qed.

Lemma new_entry_written : new_entry f = JObj (written f [] []).
Proof. reflexivity. Qed.

End Again.

(** A manifest the merge has returned is returned again by the merge of
    the same submission, and its matched entry holds exactly one record
    of the submitted version. *)
Lemma merge_again f M M1 :
  merge f M = inr M1 ->
  merge f M1 = inr M1 /\
  exists pre d post vs,
    M1 = pre ++ JObj d :: post /\
    matched (f_GUID f) pre d = true /\
    Py.dict_get "versions" d = Some (JArr vs) /\
    length (List.filter (has_version (f_VERSION f)) vs) = 1.
Proof.
  intros H.
  assert (Hshape : exists pre d0 vs post,
             forallb (passed_over (f_GUID f)) pre = true /\
             forallb is_dict vs = true /\
             M1 = pre ++ JObj (written f d0 vs) :: post).
  { unfold merge in H. destruct (scan f M) as [e|r] eqn:S; [discriminate|].
    apply scan_inv in S. destruct r as [M'|]; unfold bind_exn in H.
    - injection H as <-.
      destruct S as (pre & d & post & d' & -> & Hm & U & ->).
      apply update_entry_inv in U as (vs & _ & Hrec & ->).
      apply andb_prop in Hm as [Hpre _]. by exists pre, d, vs, post.
    - injection H as <-. exists M, [], [], []. by rewrite new_entry_written. }
  destruct Hshape as (pre & d0 & vs & post & Hpre & Hrec & ->).
  assert (Hm : matched (f_GUID f) pre (written f d0 vs) = true).
  { unfold matched. by rewrite Hpre, written_has_guid. }
  split.
  - by rewrite (merge_matched _ _ _ _ Hm), update_entry_written.
  - exists pre, (written f d0 vs), post. eexists.
    split; [reflexivity|split; [exact Hm|split]].
    + apply dict_get_set_eq.
    + simpl. rewrite String.eqb_refl. simpl.
      by rewrite without_version_none.
Qed.

(** C6: merging the same submission twice gives what merging it once
    gives, for every manifest; and in the manifest a merge returns, the
    matched entry's "versions" list holds exactly one record of the
    submitted version (so a second merge leaves that list as it is). *)
Theorem merge_idempotent f M :
  (do M1 <- merge f M; merge f M1) = merge f M /\
  forall M1,
    merge f M = inr M1 ->
    exists pre d post vs,
      M1 = pre ++ JObj d :: post /\
      matched (f_GUID f) pre d = true /\
      Py.dict_get "versions" d = Some (JArr vs) /\
      length (List.filter (has_version (f_VERSION f)) vs) = 1.
Proof.
  split.
  - destruct (merge f M) as [e|M1] eqn:H; [reflexivity|].
    exact (proj1 (merge_again f M M1 H)).
  - intros M1 H. exact (proj2 (merge_again f M M1 H)).
Qed.

Lemma merge_idempotent_witness :
  (do M1 <- merge sample_fields [sample_entry_A; JObj sample_dict_B; sample_entry_C];
   merge sample_fields M1) =
    inr [sample_entry_A;
         JObj (written sample_fields sample_dict_B
                 [sample_record "2.0" "s2"; sample_record "1.0" "s1"]);
         sample_entry_C].
Proof.
  rewrite (proj1 (merge_idempotent sample_fields
                    [sample_entry_A; JObj sample_dict_B; sample_entry_C])).
  reflexivity.
Defined.

(** ** The version values of an entry stay distinct *)

Lemma version_of_without ver vs x :
  x ∈ omap version_of (without_version ver vs) ->
  x ∈ omap version_of vs /\ x <> JStr ver.
Proof.
  unfold without_version. induction vs as [|v r IH]; simpl.
  - by intros ?%elem_of_nil.
  - destruct (has_version ver v) eqn:E; simpl.
    + intros [Hin Hne]%IH. split; [|exact Hne].
      destruct (version_of v); [by right|exact Hin].
    + destruct (version_of v) as [y|] eqn:V; [|exact IH].
      intros [->|Hin]%elem_of_cons.
      * split; [by left|]. intros ->.
        destruct v; try discriminate V. simpl in V, E. rewrite V in E.
        simpl in E. by rewrite String.eqb_refl in E.
      * destruct (IH Hin). split; [by right|done].
Qed.

Lemma NoDup_without_version ver vs :
  NoDup (omap version_of vs) -> NoDup (omap version_of (without_version ver vs)).
Proof.
  unfold without_version. induction vs as [|v r IH]; simpl; first done.
  destruct (version_of v) as [y|] eqn:V.
  - intros [Hy Hr]%NoDup_cons. destruct (negb _); simpl; [|by apply IH].
    rewrite V. apply NoDup_cons. split; [|by apply IH].
    intros Hin. apply Hy. by apply (version_of_without ver r y).
  - intros Hr. destruct (negb _); simpl; [rewrite V|]; by apply IH.
Qed.

Lemma omap_version_of_strs {A : Type} (g : A -> string) (l : list A) :
  omap version_of (map (fun a => JStr (g a)) l) = [].
Proof. induction l as [|a r IH]; [reflexivity|exact IH]. Qed.

(** What the comprehension iterates over has distinct version values
    when the entry does: the keys of a dict and the characters of a str
    have no version value at all. *)
Lemma prior_versions_distinct d vs :
  versions_distinct (JObj d) -> prior_versions d = inr vs ->
  NoDup (omap version_of vs).
Proof.
  unfold prior_versions. intros Hd.
  destruct (Py.dict_get "versions" d) as [x|] eqn:G; simpl.
  - destruct x; simpl; try discriminate; intros [= <-].
    + rewrite omap_version_of_strs. apply NoDup_nil_2.
    + by apply (Hd d).
    + rewrite omap_version_of_strs. apply NoDup_nil_2.
  - intros [= <-]. apply NoDup_nil_2.
Qed.

Lemma written_versions_distinct f d0 vs :
  NoDup (omap version_of vs) -> versions_distinct (JObj (written f d0 vs)).
Proof.
  intros Hvs d vs' [= <-]. unfold written. rewrite dict_get_set_eq.
  intros [= <-]. simpl. apply NoDup_cons. split.
  - intros [_ Hne]%version_of_without. by apply Hne.
  - by apply NoDup_without_version.
Qed.

(** C8: when no entry of the manifest has two records of the same version
    value, and the merge returns a manifest, no entry of that manifest has
    two records of the same version value. *)
Theorem merge_keeps_versions_distinct f M M' :
  Forall versions_distinct M ->
  merge f M = inr M' ->
  Forall versions_distinct M'.
Proof.
  intros Hinv H. unfold merge in H.
  destruct (scan f M) as [e|r] eqn:S; [discriminate|].
  apply scan_inv in S. destruct r as [M1|]; unfold bind_exn in H; injection H as <-.
  - destruct S as (pre & d & post & d' & -> & _ & U & ->).
    apply update_entry_inv in U as (vs & Hvs & _ & ->).
    apply Forall_app in Hinv as [Hpre [Hd Hpost]%Forall_cons].
    apply Forall_app. split; [exact Hpre|]. apply Forall_cons. split; [|exact Hpost].
    apply (written_versions_distinct f d vs).
    by apply (prior_versions_distinct d).
  - apply Forall_app. split; [exact Hinv|]. apply Forall_cons. split; [|constructor].
    rewrite new_entry_written. apply written_versions_distinct. constructor.
Qed.

Lemma merge_keeps_versions_distinct_witness :
  Forall versions_distinct
    [ sample_entry_A;
      JObj (written sample_fields sample_dict_B
              [sample_record "2.0" "s2"; sample_record "1.0" "s1"]);
      sample_entry_C ].
Proof.
  apply (merge_keeps_versions_distinct sample_fields
           [sample_entry_A; JObj sample_dict_B; sample_entry_C]).
  - repeat constructor.
    + intros d vs [= <-]. discriminate.
    + intros d vs [= <-] [= <-]. simpl. repeat constructor.
      * rewrite elem_of_cons, elem_of_nil. intros [H|[]]. discriminate H.
      * apply not_elem_of_nil.
    + intros d vs [= <-]. discriminate.
  - reflexivity.
Defined.

(** ** Reading the environment *)

Lemma bind_io_ret {A B : Type} (m : IO A) (k : A -> IO B) w a w' :
  m w = (inr a, w') -> bind_io m k w = k a w'.
Proof. unfold bind_io. by intros ->. Qed.

Lemma bind_io_raise {A B : Type} (m : IO A) (k : A -> IO B) w e w' :
  m w = (inl e, w') -> bind_io m k w = (inl e, w').
Proof. unfold bind_io. by intros ->. Qed.

Lemma env_set name v w : w_environ w !! name = Some v -> env name w = (inr v, w).
Proof. unfold env, bind_io, OS.environ_get. intros ->. reflexivity. Qed.

Lemma env_unset name w :
  w_environ w !! name = None -> env name w = (inl (SystemExit 6), complained name w).
Proof. unfold env, bind_io, OS.environ_get. intros ->. reflexivity. Qed.

Ltac read_variable w name H :=
  destruct (w_environ w !! name) as [?v|] eqn:?E;
  [ erewrite bind_io_ret by (apply env_set; eassumption);
    cbv beta zeta; simpl in H
  | erewrite bind_io_raise by (apply env_unset; eassumption);
    simpl in H; injection H as <- ].

(** C5: when a required variable is not set, [main] ends with
    [sys.exit(6)] after printing the message for the first one missing in
    the order MANIFEST_PATH, NAME, GUID, OVERVIEW, DESCRIPTION, CATEGORY,
    OWNER, IMAGE_URL, VERSION, TARGET_ABI, DOWNLOAD_URL, CHECKSUM,
    TIMESTAMP; the message is the only change: the file system is the
    same and went through no other state. *)
Theorem main_missing_variable json_loads json_dumps w name :
  first_missing (w_environ w) = Some name ->
  main json_loads json_dumps w = (inl (SystemExit 6), complained name w) /\
  exit_status (fst (main json_loads json_dumps w)) = 6%Z /\
  w_stderr (snd (main json_loads json_dumps w)) =
    w_stderr w ++ [("Environment variable " +:+ name +:+ " is required") +:+ newline] /\
  w_fs (snd (main json_loads json_dumps w)) = w_fs w /\
  w_past (snd (main json_loads json_dumps w)) = w_past w.
Proof.
  intros H.
  assert (Hmain : main json_loads json_dumps w = (inl (SystemExit 6), complained name w)).
  { unfold first_missing, required in H. simpl in H. unfold main.
    read_variable w "MANIFEST_PATH" H; [|reflexivity].
    read_variable w "NAME" H; [|reflexivity].
    read_variable w "GUID" H; [|reflexivity].
    read_variable w "OVERVIEW" H; [|reflexivity].
    read_variable w "DESCRIPTION" H; [|reflexivity].
    read_variable w "CATEGORY" H; [|reflexivity].
    read_variable w "OWNER" H; [|reflexivity].
    read_variable w "IMAGE_URL" H; [|reflexivity].
    read_variable w "VERSION" H; [|reflexivity].
    read_variable w "TARGET_ABI" H; [|reflexivity].
    read_variable w "DOWNLOAD_URL" H; [|reflexivity].
    read_variable w "CHECKSUM" H; [|reflexivity].
    read_variable w "TIMESTAMP" H; [|reflexivity].
    discriminate H. }
  rewrite Hmain. repeat split.
Qed.

(** With every variable set, [main] loads, merges and persists. *)
Lemma main_with_variables json_loads json_dumps w p f :
  variables_set (w_environ w) p f ->
  main json_loads json_dumps w =
    (io manifest <- load_manifest json_loads (Pathlib.of_string p);
     io merged <- lift (merge f manifest);
     persist json_dumps (Pathlib.of_string p) merged) w.
Proof.
  intros (H0 & H1 & H2 & H3 & H4 & H5 & H6 & H7 & H8 & H9 & H10 & H11 & H12).
  unfold main.
  rewrite (bind_io_ret _ _ _ _ _ (env_set _ _ _ H0)). cbv beta zeta.
  rewrite (bind_io_ret _ _ _ _ _ (env_set _ _ _ H1)).
  rewrite (bind_io_ret _ _ _ _ _ (env_set _ _ _ H2)).
  rewrite (bind_io_ret _ _ _ _ _ (env_set _ _ _ H3)).
  rewrite (bind_io_ret _ _ _ _ _ (env_set _ _ _ H4)).
  rewrite (bind_io_ret _ _ _ _ _ (env_set _ _ _ H5)).
  rewrite (bind_io_ret _ _ _ _ _ (env_set _ _ _ H6)).
  rewrite (bind_io_ret _ _ _ _ _ (env_set _ _ _ H7)).
  rewrite (bind_io_ret _ _ _ _ _ (env_set _ _ _ H8)).
  rewrite (bind_io_ret _ _ _ _ _ (env_set _ _ _ H9)).
  rewrite (bind_io_ret _ _ _ _ _ (env_set _ _ _ H10)).
  rewrite (bind_io_ret _ _ _ _ _ (env_set _ _ _ H11)).
  rewrite (bind_io_ret _ _ _ _ _ (env_set _ _ _ H12)).
  by destruct f.
Qed.

Lemma main_missing_variable_witness :
  first_missing (w_environ (sample_world sample_vars_no_checksum "[]")) = Some "CHECKSUM" /\
  main reject_all dump_nothing (sample_world sample_vars_no_checksum "[]") =
    (inl (SystemExit 6), complained "CHECKSUM" (sample_world sample_vars_no_checksum "[]")).
Proof.
  assert (H : first_missing (w_environ (sample_world sample_vars_no_checksum "[]"))
              = Some "CHECKSUM") by (vm_compute; reflexivity).
  split; [exact H|].
  exact (proj1 (main_missing_variable reject_all dump_nothing _ _ H)).
Defined.

(** ** Loading the manifest *)

Section Load.

Variable json_loads : string -> exn + json.

Lemma exists_eval path w :
  OS.exists_ path w = (inr (bool_decide (is_Some (w_fs w !! path))), w).
Proof. reflexivity. Qed.

Lemma st_size_file path w bytes :
  w_fs w !! path = Some (File bytes) ->
  OS.st_size path w = (inr (N.of_nat (String.length bytes)), w).
Proof. unfold OS.st_size. by intros ->. Qed.

Lemma read_file path w bytes :
  w_fs w !! path = Some (File bytes) ->
  Text.read path w =
    (match Text.decode_utf8 bytes with
     | inl e => inl e
     | inr text => inr (Text.universal_newlines text)
     end, w).
Proof.
  intros H. unfold Text.read, OS.read_bytes, OS.get_fs, lift, ret, bind_io.
  cbv beta iota. rewrite H. by destruct (Text.decode_utf8 bytes).
Qed.

Lemma load_manifest_absent path w :
  w_fs w !! path = None -> load_manifest json_loads path w = (inr [], w).
Proof.
  intros H. unfold load_manifest.
  rewrite (bind_io_ret _ _ _ _ _ (exists_eval path w)), H.
  rewrite bool_decide_eq_false_2; [reflexivity|]. by intros [? ?].
Qed.

Lemma load_manifest_empty path w :
  w_fs w !! path = Some (File "") -> load_manifest json_loads path w = (inr [], w).
Proof.
  intros H. unfold load_manifest.
  rewrite (bind_io_ret _ _ _ _ _ (exists_eval path w)), H.
  rewrite bool_decide_eq_true_2 by eauto. cbn [negb].
  by rewrite (bind_io_ret _ _ _ _ _ (st_size_file _ _ _ H)).
Qed.

Lemma length_nonempty (bytes : string) :
  bytes <> "" -> (N.of_nat (String.length bytes) =? 0)%N = false.
Proof. destruct bytes; [congruence|]. intros _. reflexivity. Qed.

(** A file that holds bytes is read, decoded and parsed. *)
Lemma load_manifest_reads path w bytes :
  w_fs w !! path = Some (File bytes) -> bytes <> "" ->
  load_manifest json_loads path w =
    match Text.decode_utf8 bytes with
    | inl e => (inl e, w)
    | inr text =>
        match json_loads (Text.universal_newlines text) with
        | inl JSONDecodeError => (inr [], w)
        | inl e => (inl e, w)
        | inr (JArr items) => (inr items, w)
        | inr data => (inr [data], w)
        end
    end.
Proof.
  intros H Hne. unfold load_manifest.
  rewrite (bind_io_ret _ _ _ _ _ (exists_eval path w)), H.
  rewrite bool_decide_eq_true_2 by eauto. cbn [negb].
  rewrite (bind_io_ret _ _ _ _ _ (st_size_file _ _ _ H)).
  rewrite (length_nonempty _ Hne). unfold try_except, bind_io.
  rewrite (read_file _ _ _ H).
  destruct (Text.decode_utf8 bytes) as [e|text] eqn:D.
  - unfold Text.decode_utf8 in D. destruct (Text.utf8_valid bytes); [discriminate|].
    by injection D as <-.
  - unfold lift. destruct (json_loads _) as [e|data]; [by destruct e|by destruct data].
Qed.

End Load.

(** C4, as the code has it: the load returns the empty list when the path
    does not exist, when the file is empty, and when [json.loads] raises
    [JSONDecodeError] on the text of the file; it returns a parsed list
    as it is and any other parsed value as a one-element list. Bytes that
    are not UTF-8, and any other exception of [json.loads], are raised. *)
Theorem load_manifest_cases json_loads path w :
  (w_fs w !! path = None -> load_manifest json_loads path w = (inr [], w)) /\
  (w_fs w !! path = Some (File "") -> load_manifest json_loads path w = (inr [], w)) /\
  (forall bytes,
     w_fs w !! path = Some (File bytes) -> bytes <> "" ->
     Text.utf8_valid bytes = true ->
     match json_loads (Text.universal_newlines bytes) with
     | inl JSONDecodeError => load_manifest json_loads path w = (inr [], w)
     | inl e => load_manifest json_loads path w = (inl e, w)
     | inr (JArr items) => load_manifest json_loads path w = (inr items, w)
     | inr data => load_manifest json_loads path w = (inr [data], w)
     end) /\
  (forall bytes,
     w_fs w !! path = Some (File bytes) -> bytes <> "" ->
     Text.utf8_valid bytes = false ->
     load_manifest json_loads path w = (inl UnicodeDecodeError, w)).
Proof.
  split; [apply load_manifest_absent|split; [apply load_manifest_empty|split]].
  - intros bytes H Hne Hv. rewrite (load_manifest_reads _ _ _ _ H Hne).
    unfold Text.decode_utf8. rewrite Hv.
    destruct (json_loads _) as [e|data]; [by destruct e|by destruct data].
  - intros bytes H Hne Hv. rewrite (load_manifest_reads _ _ _ _ H Hne).
    unfold Text.decode_utf8. by rewrite Hv.
Qed.

Lemma load_manifest_cases_witness :
  load_manifest sample_loads sample_path (sample_world [] "") = (inr [], sample_world [] "") /\
  load_manifest sample_loads sample_path (sample_world [] "[]") = (inr [], sample_world [] "[]") /\
  load_manifest sample_loads sample_path (sample_world [] "{}") =
    (inr [JObj []], sample_world [] "{}") /\
  load_manifest sample_loads sample_path (sample_world [] "{") = (inr [], sample_world [] "{").
Proof.
  split; [|split; [|split]].
  - apply (load_manifest_cases sample_loads sample_path (sample_world [] "")).
    vm_compute; reflexivity.
  - apply (proj1 (proj2 (proj2 (load_manifest_cases sample_loads sample_path
                                  (sample_world [] "[]")))) "[]");
      [vm_compute; reflexivity|discriminate|reflexivity].
  - apply (proj1 (proj2 (proj2 (load_manifest_cases sample_loads sample_path
                                  (sample_world [] "{}")))) "{}");
      [vm_compute; reflexivity|discriminate|reflexivity].
  - apply (proj1 (proj2 (proj2 (load_manifest_cases sample_loads sample_path
                                  (sample_world [] "{")))) "{");
      [vm_compute; reflexivity|discriminate|reflexivity].
Defined.

(** C4, as the claim states it, fails on a file whose bytes are not
    UTF-8: reading it raises [UnicodeDecodeError], which the [except]
    clause does not catch, whatever [json.loads] does (here it rejects
    every text with the exception that is caught). *)
Lemma load_manifest_raises_on_undecodable_file :
  load_manifest reject_all sample_path (sample_world [] byte_ff) =
    (inl UnicodeDecodeError, sample_world [] byte_ff).
Proof. vm_compute. reflexivity. Qed.

(** ** Paths *)

Section PathFacts.

Import Pathlib.

Lemma length_append (a b : string) :
  String.length (a +:+ b) = String.length a + String.length b.
Proof. induction a as [|c r IH]; simpl; [done|]. by rewrite IH. Qed.

Lemma no_slash_app a b : no_slash (a +:+ b) = no_slash a && no_slash b.
Proof. induction a as [|c r IH]; simpl; [done|]. by rewrite IH, andb_assoc. Qed.

Lemma components_no_slash s : Forall (fun c => no_slash c = true) (components s).
Proof.
  induction s as [|c r IH]; simpl.
  - by repeat constructor.
  - destruct (Ascii.eqb c slash) eqn:E.
    + by constructor.
    + destruct (components r) as [|x xs]; simpl.
      * repeat constructor. simpl. by rewrite E.
      * apply Forall_cons in IH as [Hx Hxs]. constructor; [|done].
        simpl. by rewrite E, Hx.
Qed.

Lemma components_single s : no_slash s = true -> components s = [s].
Proof.
  induction s as [|c r IH]; simpl; [done|].
  intros [Hc Hr]%andb_prop. apply negb_true_iff in Hc. rewrite Hc.
  by rewrite (IH Hr).
Qed.

Lemma root_of_no_slash s : no_slash s = true -> root_of s = "".
Proof.
  destruct s as [|c1 r]; simpl; [done|].
  intros [Hc _]%andb_prop. apply negb_true_iff in Hc.
  destruct r as [|c2 [|c3 r]]; by rewrite Hc.
Qed.

Lemma of_string_well_formed s : well_formed (of_string s).
Proof.
  unfold well_formed, of_string. simpl.
  pose proof (components_no_slash s) as H.
  induction H as [|c l Hc Hl IH]; simpl; [constructor|].
  destruct (kept c); [by constructor|done].
Qed.

Lemma name_no_slash p : well_formed p -> no_slash (name p) = true.
Proof.
  unfold well_formed, name. intros H.
  induction H as [|c l Hc Hl IH]; simpl; [done|].
  by destruct l.
Qed.

Lemma kept_tmp n : kept (n +:+ ".tmp") = true.
Proof.
  unfold kept.
  assert (H : forall t, String.length t < 4 -> String.eqb (n +:+ ".tmp") t = false).
  { intros t Ht. apply String.eqb_neq. intros E.
    apply (f_equal String.length) in E.
    rewrite length_append in E. simpl in E. lia. }
  rewrite !H by (simpl; lia). reflexivity.
Qed.

(** The temporary path is the path with ".tmp" added to its last component. *)
Lemma tmp_path_parts p :
  well_formed p ->
  tmp_path p = mkPath (p_root p) (List.removelast (p_parts p) ++ [name p +:+ ".tmp"]).
Proof.
  intros Hp. unfold tmp_path, div.
  assert (Hn : no_slash (name p +:+ ".tmp") = true).
  { by rewrite no_slash_app, (name_no_slash _ Hp). }
  unfold of_string. rewrite (root_of_no_slash _ Hn), (components_single _ Hn).
  simpl. by rewrite kept_tmp.
Qed.

Lemma parts_removelast_name p :
  p_parts p <> [] -> p_parts p = List.removelast (p_parts p) ++ [name p].
Proof. intros H. unfold name. by apply app_removelast_last. Qed.

Lemma append_tmp_differs n : n +:+ ".tmp" <> n.
Proof.
  intros H. apply (f_equal String.length) in H.
  rewrite length_append in H. simpl in H. lia.
Qed.

Lemma tmp_path_differs p : well_formed p -> tmp_path p <> p.
Proof.
  intros Hp H. rewrite (tmp_path_parts _ Hp) in H.
  apply (f_equal p_parts) in H. simpl in H.
  destruct (decide (p_parts p = [])) as [Hnil|Hne].
  - rewrite Hnil in H. discriminate H.
  - pose proof (parts_removelast_name p Hne) as Hparts.
    assert (E : List.removelast (p_parts p) ++ [name p +:+ ".tmp"] =
                List.removelast (p_parts p) ++ [name p]) by congruence.
    apply app_inj_tail in E as [_ E]. by apply append_tmp_differs in E.
Qed.

Lemma tmp_path_parent p : well_formed p -> parent (tmp_path p) = parent p.
Proof.
  intros Hp. rewrite (tmp_path_parts _ Hp). unfold parent. simpl.
  by rewrite removelast_last.
Qed.

Lemma parent_rev root x up :
  parent (mkPath root (rev (x :: up))) = mkPath root (rev up).
Proof. unfold parent. simpl. by rewrite removelast_last. Qed.

End PathFacts.

(** ** Changes of the file system *)

Section Confinement.

Lemma touches_only_refl K w : touches_only K w w.
Proof.
  repeat split; try done. exists []. split; [done|constructor].
Qed.

Lemma touches_only_trans K w w1 w2 :
  touches_only K w w1 -> touches_only K w1 w2 -> touches_only K w w2.
Proof.
  intros (E1 & D1 & S1 & F1 & st1 & P1 & A1) (E2 & D2 & S2 & F2 & st2 & P2 & A2).
  repeat split; try congruence.
  - intros q Hq. by rewrite F2, F1.
  - exists (st2 ++ st1). split.
    + by rewrite P2, P1, app_assoc.
    + apply Forall_app. split; [|done].
      eapply Forall_impl; [exact A2|]. intros fs H q Hq. by rewrite H, F1.
Qed.

Lemma touches_only_mono (K K' : Path -> Prop) w w' :
  (forall q, K q -> K' q) -> touches_only K w w' -> touches_only K' w w'.
Proof.
  intros HK (E & D & S & F & st & P & A). repeat split; try done.
  - intros q Hq. apply F. auto.
  - exists st. split; [done|].
    eapply Forall_impl; [exact A|]. intros fs H q Hq. apply H. auto.
Qed.

Lemma set_fs_touches (K : Path -> Prop) fs' w :
  (forall q, ~ K q -> fs' !! q = w_fs w !! q) ->
  touches_only K w (snd (OS.set_fs fs' w)).
Proof.
  intros H. repeat split; try done. exists [fs']. split; [done|].
  by repeat constructor.
Qed.

Lemma confined_mono {A : Type} (K K' : Path -> Prop) (m : IO A) :
  (forall q, K q -> K' q) -> confined K m -> confined K' m.
Proof. intros HK Hm w. eapply touches_only_mono; [exact HK|apply Hm]. Qed.

Lemma confined_raise {A : Type} K e : confined K (@raise A e).
Proof. intros w. apply touches_only_refl. Qed.

Lemma confined_bind {A B : Type} K (m : IO A) (k : A -> IO B) :
  confined K m -> (forall a, confined K (k a)) -> confined K (bind_io m k).
Proof.
  intros Hm Hk w. unfold bind_io. specialize (Hm w).
  destruct (m w) as [[e|a] w1]; simpl in *; [done|].
  eapply touches_only_trans; [exact Hm|apply Hk].
Qed.

Lemma confined_try_except {A : Type} K (body : IO A) handled handler :
  confined K body -> (forall e, confined K (handler e)) ->
  confined K (try_except body handled handler).
Proof.
  intros Hb Hh w. unfold try_except. specialize (Hb w).
  destruct (body w) as [[e|a] w1]; simpl in *; [|done].
  destruct (handled e); [|done].
  eapply touches_only_trans; [exact Hb|apply Hh].
Qed.

Lemma parent_of_root p : p_parts p = [] -> Pathlib.parent p = p.
Proof. destruct p as [root parts]. simpl. by intros ->. Qed.

(** [os.mkdir(p)] can only add [p], and only below another path. *)
Lemma confined_mkdir p :
  confined (fun q => q = p /\ p_parts p <> []) (OS.mkdir p).
Proof.
  intros w. unfold OS.mkdir, OS.get_fs, bind_io, raise. cbv beta iota.
  destruct (w_fs w !! p) eqn:Hp; [apply touches_only_refl|].
  destruct (w_fs w !! Pathlib.parent p) as [[c|]|] eqn:Hpar;
    try apply touches_only_refl.
  apply set_fs_touches. intros q Hq.
  destruct (decide (q = p)) as [->|Hne].
  - destruct (decide (p_parts p = [])) as [Hnil|Hparts]; [|tauto].
    rewrite (parent_of_root _ Hnil) in Hpar. congruence.
  - by rewrite lookup_insert_ne.
Qed.

Lemma confined_mkdir_exist_ok p :
  confined (fun q => q = p /\ p_parts p <> []) (mkdir_exist_ok p).
Proof.
  apply confined_try_except; [apply confined_mkdir|].
  intros e w. unfold bind_io, OS.get_fs. cbv beta iota.
  destruct (w_fs w !! p) as [[c|]|]; apply touches_only_refl.
Qed.

Lemma mkdir_parents_unfold root rparts :
  mkdir_parents root rparts =
    try_except (mkdir_exist_ok (mkPath root (rev rparts))) is_FileNotFoundError
      (fun e =>
         match rparts with
         | [] => raise e
         | _ :: up =>
             io _ <- mkdir_parents root up;
             mkdir_exist_ok (mkPath root (rev rparts))
         end).
Proof. by destruct rparts. Qed.

(** Making a directory and its parents leaves alone every path with more
    components than the directory has, and every path without components. *)
Lemma confined_mkdir_parents root rparts :
  confined (shallow (length rparts)) (mkdir_parents root rparts).
Proof.
  induction rparts as [|x up IH].
  - rewrite mkdir_parents_unfold. apply confined_try_except.
    + eapply confined_mono; [|apply confined_mkdir_exist_ok].
      intros q [-> H]. by destruct H.
    + intros e. apply confined_raise.
  - rewrite mkdir_parents_unfold.
    assert (Hp : confined (shallow (length (x :: up)))
                   (mkdir_exist_ok (mkPath root (rev (x :: up))))).
    { eapply confined_mono; [|apply confined_mkdir_exist_ok].
      intros q [-> H]. split; [exact H|]. cbn [p_parts]. by rewrite length_rev. }
    apply confined_try_except; [exact Hp|].
    intros e. apply confined_bind; [|intros _; exact Hp].
    eapply confined_mono; [|exact IH].
    intros q [H1 H2]. split; [exact H1|]. simpl. lia.
Qed.

Lemma mkdir_exist_ok_dir p w :
  w_fs w !! p = Some Dir -> mkdir_exist_ok p w = (inr tt, w).
Proof.
  intros H. unfold mkdir_exist_ok, try_except, OS.mkdir, OS.get_fs, bind_io, raise, ret.
  cbv beta iota. rewrite H. cbv beta iota. simpl. by rewrite H.
Qed.

Lemma mkdir_exist_ok_new p w :
  w_fs w !! p = None -> w_fs w !! Pathlib.parent p = Some Dir ->
  mkdir_exist_ok p w = OS.set_fs (<[p := Dir]> (w_fs w)) w.
Proof.
  intros H Hpar.
  unfold mkdir_exist_ok, try_except, OS.mkdir, OS.get_fs, bind_io, raise, ret.
  cbv beta iota. by rewrite H, Hpar.
Qed.

Lemma mkdir_exist_ok_orphan p w :
  w_fs w !! p = None -> w_fs w !! Pathlib.parent p = None ->
  mkdir_exist_ok p w = (inl (OSError FileNotFoundError), w).
Proof.
  intros H Hpar.
  unfold mkdir_exist_ok, try_except, OS.mkdir, OS.get_fs, bind_io, raise, ret.
  cbv beta iota. by rewrite H, Hpar.
Qed.

(** When the directory is there or can be made, [mkdir_parents] returns
    and the directory is there. *)
Lemma dirs_ok_unfold fs root rparts :
  dirs_ok fs root rparts =
    match fs !! mkPath root (rev rparts) with
    | Some Dir => true
    | Some (File _) => false
    | None =>
        match rparts with
        | [] => false
        | _ :: up => dirs_ok fs root up
        end
    end.
Proof. by destruct rparts. Qed.

Lemma mkdir_parents_ok root rparts w :
  dirs_ok (w_fs w) root rparts = true ->
  exists w',
    mkdir_parents root rparts w = (inr tt, w') /\
    w_fs w' !! mkPath root (rev rparts) = Some Dir.
Proof.
  revert w. induction rparts as [|x up IH]; intros w Hok;
    rewrite mkdir_parents_unfold; unfold try_except;
    rewrite dirs_ok_unfold in Hok.
  - destruct (w_fs w !! mkPath root (rev [])) as [[c|]|] eqn:Hp;
      try discriminate Hok.
    exists w. by rewrite (mkdir_exist_ok_dir _ _ Hp).
  - destruct (w_fs w !! mkPath root (rev (x :: up))) as [[c|]|] eqn:Hp;
      try discriminate Hok.
    + exists w. by rewrite (mkdir_exist_ok_dir _ _ Hp).
    + destruct (w_fs w !! mkPath root (rev up)) as [[c|]|] eqn:Hpar.
      * rewrite dirs_ok_unfold, Hpar in Hok. discriminate Hok.
      * rewrite mkdir_exist_ok_new by (by rewrite ?parent_rev).
        eexists. split; [reflexivity|]. apply lookup_insert_eq.
      * rewrite mkdir_exist_ok_orphan by (by rewrite ?parent_rev).
        cbn [is_FileNotFoundError].
        destruct (IH w Hok) as (w1 & Hrun & Hdir).
        rewrite (bind_io_ret _ _ _ _ _ Hrun).
        assert (Hsame : w_fs w1 !! mkPath root (rev (x :: up)) = None).
        { pose proof (confined_mkdir_parents root up w) as (_ & _ & _ & F & _).
          rewrite Hrun in F. cbn [snd] in F. rewrite F; [exact Hp|].
          intros [_ H]. cbn [p_parts] in H. rewrite length_rev in H.
          simpl in H. lia. }
        rewrite mkdir_exist_ok_new by (by rewrite ?parent_rev).
        eexists. split; [reflexivity|]. apply lookup_insert_eq.
Qed.

End Confinement.

(** ** Writing the manifest *)

Section Persist.

Variable json_dumps : nat -> json -> string.

Lemma mkdir_exist_ok_post p w w' :
  mkdir_exist_ok p w = (inr tt, w') -> w_fs w' !! p = Some Dir.
Proof.
  unfold mkdir_exist_ok, try_except, OS.mkdir, OS.get_fs, bind_io, raise, ret.
  cbv beta iota.
  destruct (w_fs w !! p) as [[c|]|] eqn:Hp; simpl.
  - rewrite Hp. discriminate.
  - rewrite Hp. by intros [= <-].
  - destruct (w_fs w !! Pathlib.parent p) as [[c|]|]; simpl.
    + rewrite Hp. discriminate.
    + intros [= <-]. apply lookup_insert_eq.
    + discriminate.
Qed.

Lemma mkdir_parents_post root rparts w w' :
  mkdir_parents root rparts w = (inr tt, w') ->
  w_fs w' !! mkPath root (rev rparts) = Some Dir.
Proof.
  rewrite mkdir_parents_unfold. unfold try_except.
  destruct (mkdir_exist_ok _ w) as [[e|[]] w1] eqn:Hrun.
  - destruct (is_FileNotFoundError e); [|discriminate].
    destruct rparts as [|x up]; [discriminate|].
    unfold bind_io. destruct (mkdir_parents root up w1) as [[e'|[]] w2]; [discriminate|].
    apply mkdir_exist_ok_post.
  - intros [= <-]. by apply mkdir_exist_ok_post in Hrun.
Qed.

Lemma confined_open_w p : confined (eq p) (OS.open_w p).
Proof.
  intros w. unfold OS.open_w, OS.get_fs, bind_io, raise. cbv beta iota.
  assert (Hset : touches_only (eq p) w (snd (OS.set_fs (<[p := File ""]> (w_fs w)) w))).
  { apply set_fs_touches. intros q Hq. by rewrite lookup_insert_ne. }
  destruct (w_fs w !! p) as [[c|]|]; [exact Hset|apply touches_only_refl|].
  destruct (w_fs w !! Pathlib.parent p) as [[c|]|];
    [apply touches_only_refl|exact Hset|apply touches_only_refl].
Qed.

Lemma confined_flush p written : confined (eq p) (OS.flush p written).
Proof.
  intros w. unfold OS.flush, OS.get_fs, bind_io. cbv beta iota.
  apply set_fs_touches. intros q Hq. by rewrite lookup_insert_ne.
Qed.

Lemma open_w_ok p w :
  is_dir_at (w_fs w) p = false -> w_fs w !! Pathlib.parent p = Some Dir ->
  OS.open_w p w = OS.set_fs (<[p := File ""]> (w_fs w)) w.
Proof.
  unfold is_dir_at, OS.open_w, OS.get_fs, bind_io. cbv beta iota.
  intros Hp Hpar. destruct (w_fs w !! p) as [[c|]|]; [done|discriminate|].
  by rewrite Hpar.
Qed.

Lemma replace_eval src dst c w :
  w_fs w !! src = Some (File c) ->
  OS.replace src dst w =
    if is_dir_at (w_fs w) dst then (inl (OSError IsADirectoryError), w)
    else OS.set_fs (<[dst := File c]> (delete src (w_fs w))) w.
Proof.
  intros H. unfold OS.replace, OS.get_fs, bind_io, is_dir_at, raise. cbv beta iota.
  rewrite H. by destruct (w_fs w !! dst) as [[c'|]|].
Qed.

Lemma length_removelast (l : list string) :
  l <> [] -> length l = S (length (List.removelast l)).
Proof.
  intros H. rewrite (app_removelast_last "" H) at 1.
  rewrite length_app. simpl. lia.
Qed.

Lemma path_not_scratch path : well_formed path -> ~ scratch path path.
Proof.
  intros Hp [[Hne Hlen]|Heq].
  - rewrite (tmp_path_parent _ Hp) in Hlen. unfold Pathlib.parent in Hlen.
    simpl in Hlen. rewrite (length_removelast _ Hne) in Hlen. lia.
  - symmetry in Heq. by apply tmp_path_differs in Heq.
Qed.

Lemma tmp_not_shallow path :
  well_formed path ->
  ~ shallow (length (p_parts (Pathlib.parent (tmp_path path)))) (tmp_path path).
Proof.
  intros Hp [_ Hlen]. rewrite (tmp_path_parent _ Hp) in Hlen.
  rewrite (tmp_path_parts _ Hp) in Hlen. unfold Pathlib.parent in Hlen.
  simpl in Hlen. rewrite length_app in Hlen. simpl in Hlen. lia.
Qed.

Lemma tmp_path_not_its_parent path :
  well_formed path -> Pathlib.parent (tmp_path path) <> tmp_path path.
Proof.
  intros Hp H. apply (f_equal (fun q => length (p_parts q))) in H.
  rewrite (tmp_path_parent _ Hp) in H. rewrite (tmp_path_parts _ Hp) in H.
  unfold Pathlib.parent in H. simpl in H. rewrite length_app in H. simpl in H. lia.
Qed.

End Persist.

Lemma touches_keeps (K : Path -> Prop) p w w' :
  ~ K p -> touches_only K w w' ->
  w_fs w' !! p = w_fs w !! p /\
  exists states,
    w_past w' = states ++ w_past w /\
    Forall (fun fs => fs !! p = w_fs w !! p) states.
Proof.
  intros Hp (_ & _ & _ & F & states & P & A). split; [by apply F|].
  exists states. split; [exact P|].
  eapply Forall_impl; [exact A|]. intros fs H. by apply H.
Qed.

(** C7: [persist] writes [json.dumps(manifest, indent=2)] and a line feed
    to the path with ".tmp" added to the name, in the directory of the
    target, which it makes with its parents when missing, and then puts
    that file in the place of the target in one step. Every state the file
    system goes through holds at the target either what it held before or
    the whole new text; when [persist] returns, the target holds the new
    text, the temporary file is gone, and the state before the last held
    the whole text in the temporary file and the old target; when it
    raises, the target is as it was. It returns whenever the directory is
    there or can be made and neither path is a directory. *)
Theorem persist_replaces_target json_dumps s manifest w :
  let path := Pathlib.of_string s in
  let tmp := tmp_path path in
  let new := File (json_dumps 2 (JArr manifest) +:+ newline) in
  let r := fst (persist json_dumps path manifest w) in
  let w' := snd (persist json_dumps path manifest w) in
  (Pathlib.parent tmp = Pathlib.parent path /\
   Pathlib.name tmp = Pathlib.name path +:+ ".tmp" /\
   tmp <> path) /\
  (exists states,
     w_past w' = states ++ w_past w /\
     Forall (fun fs => fs !! path = w_fs w !! path \/ fs !! path = Some new) states) /\
  (r = inr tt ->
   w_fs w' !! path = Some new /\
   w_fs w' !! tmp = None /\
   w_fs w' !! Pathlib.parent path = Some Dir /\
   exists fs before,
     w_past w' = w_fs w' :: fs :: before ++ w_past w /\
     fs !! tmp = Some new /\
     Forall (fun fs' => fs' !! path = w_fs w !! path) (fs :: before)) /\
  (r <> inr tt -> w_fs w' !! path = w_fs w !! path) /\
  (can_persist (w_fs w) path = true -> r = inr tt).
Proof.
  intros path tmp new r w'.
  assert (Hp : well_formed path) by apply of_string_well_formed.
  pose proof (path_not_scratch path Hp) as Hout.
  split.
  { split; [by apply tmp_path_parent|]. split; [|by apply tmp_path_differs].
    unfold tmp. rewrite (tmp_path_parts _ Hp). unfold Pathlib.name. simpl.
    by rewrite last_last. }
  subst r w'. unfold persist. cbv zeta. fold path. fold tmp.
  set (dir := Pathlib.parent tmp).
  pose proof (confined_mkdir_parents (p_root dir) (rev (p_parts dir)) w) as C1s.
  rewrite length_rev in C1s.
  pose proof (touches_only_mono _ (scratch path) _ _ (fun q Hq => or_introl Hq) C1s)
    as C1.
  destruct (mkdir_parents (p_root dir) (rev (p_parts dir)) w) as [[e|[]] w1] eqn:H1.
  { (* the directory cannot be made *)
    rewrite (bind_io_raise _ _ _ _ _ H1). cbn [fst snd] in *.
    destruct (touches_keeps _ _ _ _ Hout C1) as (Hsame & states & P & A).
    split; [|split; [discriminate|split; [done|]]].
    - exists states. split; [exact P|].
      eapply Forall_impl; [exact A|]. by left.
    - intros [[Hok _]%andb_prop _]%andb_prop.
      destruct (mkdir_parents_ok _ _ _ Hok) as (w1' & Hrun & _).
      fold tmp in Hrun. fold dir in Hrun. congruence. }
  rewrite (bind_io_ret _ _ _ _ _ H1). cbn [snd] in C1, C1s.
  assert (Hdir1 : w_fs w1 !! dir = Some Dir).
  { apply mkdir_parents_post in H1. rewrite rev_involutive in H1.
    by destruct dir. }
  pose proof (confined_open_w tmp w1) as C2t.
  pose proof (touches_only_mono _ (scratch path) _ _
                (fun q (Hq : tmp = q) => or_intror (eq_sym Hq)) C2t) as C2.
  pose proof (touches_only_trans _ _ _ _ C1 C2) as C12.
  destruct (OS.open_w tmp w1) as [[e|[]] w2] eqn:H2.
  { (* the temporary file cannot be opened *)
    rewrite (bind_io_raise _ _ _ _ _ H2). cbn [fst snd] in *.
    destruct (touches_keeps _ _ _ _ Hout C12) as (Hsame & states & P & A).
    split; [|split; [discriminate|split; [done|]]].
    - exists states. split; [exact P|].
      eapply Forall_impl; [exact A|]. by left.
    - intros [[_ _]%andb_prop Htmp%negb_true_iff]%andb_prop.
      fold tmp in Htmp.
      assert (Hdirtmp : is_dir_at (w_fs w1) tmp = false).
      { unfold is_dir_at in *. destruct C1s as (_ & _ & _ & F & _).
        rewrite F; [exact Htmp|]. by apply (tmp_not_shallow path Hp). }
      rewrite (open_w_ok _ _ Hdirtmp Hdir1) in H2. discriminate H2. }
  rewrite (bind_io_ret _ _ _ _ _ H2). cbn [snd] in C2, C2t, C12.
  set (text := rendered json_dumps manifest).
  set (w3 := snd (OS.flush tmp text w2)).
  assert (H3 : OS.flush tmp text w2 = (inr tt, w3)) by reflexivity.
  rewrite (bind_io_ret _ _ _ _ _ H3).
  pose proof (confined_flush tmp text w2) as C3. fold w3 in C3.
  apply (touches_only_mono _ (scratch path)) in C3; [|intros q <-; by right].
  pose proof (touches_only_trans _ _ _ _ C12 C3) as C123.
  assert (Htmp3 : w_fs w3 !! tmp = Some (File text)) by apply lookup_insert_eq.
  assert (Hpast3 : w_past w3 = w_fs w3 :: w_past w2) by reflexivity.
  assert (Hdir3 : w_fs w3 !! dir = Some Dir).
  { destruct C2t as (_ & _ & _ & F2 & _). simpl.
    rewrite lookup_insert_ne by apply not_eq_sym, (tmp_path_not_its_parent path Hp).
    rewrite <- Hdir1. apply F2.
    apply not_eq_sym, (tmp_path_not_its_parent path Hp). }
  rewrite (replace_eval _ _ _ _ Htmp3).
  destruct (touches_keeps _ _ _ _ Hout C123) as (Hsame3 & states3 & P3 & A3).
  destruct (touches_keeps _ _ _ _ Hout C12) as (_ & states2 & P2 & _).
  destruct (is_dir_at (w_fs w3) path) eqn:Hd.
  { (* the target is a directory *)
    cbn [fst snd].
    split; [|split; [discriminate|split; [done|]]].
    - exists states3. split; [exact P3|].
      eapply Forall_impl; [exact A3|]. by left.
    - intros [[_ Hpath%negb_true_iff]%andb_prop _]%andb_prop.
      unfold is_dir_at in Hd, Hpath. rewrite Hsame3 in Hd. congruence. }
  cbn [fst snd OS.set_fs w_past w_fs].
  assert (Hstates : states3 = w_fs w3 :: states2).
  { apply (app_inv_tail (w_past w)). rewrite <- P3, Hpast3, P2. reflexivity. }
  split; [|split; [intros _|split; [done|done]]].
  - exists (<[path := File text]> (delete tmp (w_fs w3)) :: states3).
    split; [by rewrite P3|]. constructor.
    + right. apply lookup_insert_eq.
    + eapply Forall_impl; [exact A3|]. by left.
  - split; [apply lookup_insert_eq|]. split; [|split].
    + rewrite lookup_insert_ne by apply not_eq_sym, (tmp_path_differs path Hp).
      apply lookup_delete_eq.
    + fold dir. rewrite <- (tmp_path_parent path Hp). fold tmp. fold dir.
      assert (Hne : path <> dir).
      { intros E. unfold is_dir_at in Hd. rewrite E, Hdir3 in Hd. discriminate Hd. }
      rewrite lookup_insert_ne by exact Hne.
      rewrite lookup_delete_ne by apply not_eq_sym, (tmp_path_not_its_parent path Hp).
      exact Hdir3.
    + exists (w_fs w3), states2. split; [by rewrite P3, Hstates|].
      split; [exact Htmp3|]. by rewrite <- Hstates.
Qed.

Lemma persist_replaces_target_witness :
  fst (persist sample_dumps (Pathlib.of_string "out/dist/manifest.json") [] bare_world)
    = inr tt /\
  w_fs (snd (persist sample_dumps (Pathlib.of_string "out/dist/manifest.json") []
               bare_world))
    !! Pathlib.of_string "out/dist/manifest.json" = Some (File ("[]" +:+ newline)) /\
  w_fs (snd (persist sample_dumps (Pathlib.of_string "out/dist/manifest.json") []
               bare_world))
    !! Pathlib.of_string "out/dist" = Some Dir.
Proof.
  pose proof (persist_replaces_target sample_dumps "out/dist/manifest.json" []
                bare_world) as H.
  cbv zeta in H. destruct H as (_ & _ & Hdone & _ & Hok).
  assert (Hrun : fst (persist sample_dumps (Pathlib.of_string "out/dist/manifest.json")
                        [] bare_world) = inr tt).
  { apply Hok. vm_compute. reflexivity. }
  destruct (Hdone Hrun) as (Hnew & _ & Hdir & _).
  split; [exact Hrun|]. split; [exact Hnew|exact Hdir].
Defined.

(** ** A whole run *)

(** A manifest file that is not JSON does not stop the run: the new
    manifest holds the submitted entry alone, and the run ends with
    status 0. *)
Lemma main_survives_corrupt_manifest :
  let run := main sample_loads sample_dumps (sample_world sample_vars "{") in
  exit_status (fst run) = 0%Z /\
  w_fs (snd run) !! sample_path =
    Some (File (rendered sample_dumps [new_entry sample_fields])) /\
  w_stderr (snd run) = [].
Proof.
  cbv zeta.
  rewrite (main_with_variables sample_loads sample_dumps _ "dist/manifest.json"
             sample_fields) by (vm_compute; repeat split).
  vm_compute. repeat split.
Qed.

(** * Further properties of the merge *)

Section MergeMore.

Variable f : Fields.

Lemma update_entry_raise_inv d e :
  update_entry f d = inl e ->
  (prior_versions d = inl TypeError /\ e = TypeError) \/
  (exists vs, prior_versions d = inr vs /\ forallb is_dict vs = false /\
              e = AttributeError).
Proof.
  unfold update_entry, prior_versions. rewrite update_plugin_versions.
  destruct (Py.iter _) as [e'|vs] eqn:I.
  - intros [= <-]. left.
    assert (e' = TypeError) as ->; [|done].
    destruct (default _ _); simpl in I; congruence.
  - unfold bind_exn at 1. intros H. right. exists vs. split; [done|].
    destruct (keep_other_versions (f_VERSION f) vs) as [e'|kept] eqn:K;
      [|discriminate H].
    injection H as <-. clear I. revert e' K.
    induction vs as [|v r IH]; intros e' K; [discriminate K|].
    simpl in K. destruct v; try (injection K as <-; done).
    simpl in K. destruct (keep_other_versions _ r) as [e''|rest]; [|discriminate K].
    injection K as <-. simpl. by apply IH.
Qed.

Lemma scan_raise_inv M e :
  scan f M = inl e ->
  (exists pre x post,
      M = pre ++ x :: post /\ forallb (passed_over (f_GUID f)) pre = true /\
      is_dict x = false /\ e = AttributeError) \/
  (exists pre d post,
      M = pre ++ JObj d :: post /\ matched (f_GUID f) pre d = true /\
      update_entry f d = inl e).
Proof.
  induction M as [|x rest IH]; [discriminate|]. simpl.
  assert (Hbad : is_dict x = false -> inl AttributeError = @inl exn (option (list json)) e ->
            (exists pre x0 post,
               x :: rest = pre ++ x0 :: post /\
               forallb (passed_over (f_GUID f)) pre = true /\
               is_dict x0 = false /\ e = AttributeError) \/
            (exists pre d post,
               x :: rest = pre ++ JObj d :: post /\
               matched (f_GUID f) pre d = true /\ update_entry f d = inl e)).
  { intros Hx [= <-]. left. by exists [], x, rest. }
  destruct x; try (by apply Hbad).
  destruct (Py.eq_str (Py.dict_get "guid" fields) (f_GUID f)) eqn:G.
  - destruct (update_entry f fields) as [e'|d'] eqn:U; [|discriminate].
    intros [= <-]. right. exists [], fields, rest. unfold matched. simpl.
    by rewrite G.
  - destruct (scan f rest) as [e'|r]; [|discriminate].
    intros [= <-]. assert (Hp : passed_over (f_GUID f) (JObj fields) = true).
    { unfold passed_over. simpl. by rewrite G. }
    destruct (IH eq_refl) as [(pre & x & post & -> & Hpre & Hx & ->)
                             |(pre & d & post & -> & Hm & U)].
    + left. exists (JObj fields :: pre), x, post. simpl. by rewrite Hp, Hpre.
    + right. exists (JObj fields :: pre), d, post. unfold matched in *. simpl.
      by rewrite Hp.
Qed.

Lemma merge_raise_scan M e : merge f M = inl e -> scan f M = inl e.
Proof.
  unfold merge. destruct (scan f M) as [e'|[m|]]; simpl; congruence.
Qed.

Lemma merge_cons_passed_over x rest :
  passed_over (f_GUID f) x = true ->
  merge f (x :: rest) = do R <- merge f rest; inr (x :: R).
Proof.
  intros Hx. unfold merge. simpl. unfold passed_over in Hx.
  destruct x; try discriminate Hx. simpl in Hx.
  destruct (Py.eq_str _ _); [discriminate Hx|].
  by destruct (scan f rest) as [e|[m|]].
Qed.

Lemma merge_cons_matched d rest :
  has_guid (f_GUID f) (JObj d) = true ->
  merge f (JObj d :: rest) = do d' <- update_entry f d; inr (JObj d' :: rest).
Proof.
  intros Hd. apply (merge_matched f [] d rest). unfold matched. simpl.
  simpl in Hd. by rewrite Hd.
Qed.

Lemma has_guid_value g d :
  has_guid g (JObj d) = true -> Py.dict_get "guid" d = Some (JStr g).
Proof.
  simpl. destruct (Py.dict_get "guid" d) as [[]|]; simpl; try discriminate.
  by intros ->%String.eqb_eq.
Qed.

Lemma written_guid d vs : Py.dict_get "guid" (written f d vs) = Some (JStr (f_GUID f)).
Proof. apply written_descriptor. simpl. tauto. Qed.

Lemma written_versions d vs :
  Py.dict_get "versions" (written f d vs) =
    Some (JArr (JObj (version_entry f) :: without_version (f_VERSION f) vs)).
Proof. apply dict_get_set_eq. Qed.

Lemma without_version_clean ver vs :
  forallb (fun v => negb (has_version ver v)) (without_version ver vs) = true.
Proof.
  unfold without_version. induction vs as [|v r IH]; simpl; [done|].
  destruct (has_version ver v) eqn:E; simpl; [done|]. by rewrite E.
Qed.

End MergeMore.

(** The two ways in which the merge returns a manifest. *)
Lemma merge_returns_cases f M M' :
  merge f M = inr M' ->
  (forallb (passed_over (f_GUID f)) M = true /\ M' = M ++ [new_entry f]) \/
  (exists pre d post vs,
      M = pre ++ JObj d :: post /\
      matched (f_GUID f) pre d = true /\
      prior_versions d = inr vs /\
      forallb is_dict vs = true /\
      M' = pre ++ merged_entry f d vs :: post).
Proof.
  intros H. unfold merge in H.
  destruct (scan f M) as [e|r] eqn:S; [discriminate|].
  apply scan_inv in S. destruct r as [M1|]; unfold bind_exn in H; injection H as <-.
  - right. destruct S as (pre & d & post & d' & -> & Hm & U & ->).
    apply update_entry_inv in U as (vs & Hvs & Hrec & ->).
    by exists pre, d, post, vs.
  - by left.
Qed.

(** X1: the merge returns a manifest in two cases only, and then returns
    this one: every entry is a dict of another guid, and the manifest is
    returned with the new entry added at its end; or the loop stops at a
    dict of the submitted guid, what that dict holds under "versions"
    yields dicts only, and the manifest is returned with that dict
    replaced at its place. *)
Theorem merge_returns_iff f M M' :
  merge f M = inr M' <->
  (forallb (passed_over (f_GUID f)) M = true /\ M' = M ++ [new_entry f]) \/
  (exists pre d post vs,
      M = pre ++ JObj d :: post /\
      matched (f_GUID f) pre d = true /\
      prior_versions d = inr vs /\
      forallb is_dict vs = true /\
      M' = pre ++ merged_entry f d vs :: post).
Proof.
  split; [apply merge_returns_cases|].
  intros [[Hp ->]|(pre & d & post & vs & -> & Hm & Hvs & Hrec & ->)].
  - unfold merge. by rewrite (scan_passed_over _ _ Hp).
  - unfold merge. rewrite (scan_matched _ _ _ _ Hm).
    by rewrite (update_entry_ok _ _ _ Hvs Hrec).
Qed.

(** X2: the merge raises nothing but [TypeError] and [AttributeError]:
    [TypeError] exactly when the loop stops at a dict of the submitted
    guid whose "versions" value cannot be iterated, [AttributeError]
    exactly when it meets an entry that is not a dict before any match, or
    an item that is not a dict among the matched entry's versions. *)
Theorem merge_raises_iff f M :
  (merge f M = inl TypeError <->
   exists pre d post,
     M = pre ++ JObj d :: post /\ matched (f_GUID f) pre d = true /\
     prior_versions d = inl TypeError) /\
  (merge f M = inl AttributeError <->
   (exists pre x post,
      M = pre ++ x :: post /\ forallb (passed_over (f_GUID f)) pre = true /\
      is_dict x = false) \/
   (exists pre d post vs,
      M = pre ++ JObj d :: post /\ matched (f_GUID f) pre d = true /\
      prior_versions d = inr vs /\ forallb is_dict vs = false)) /\
  (forall e, merge f M = inl e -> e = TypeError \/ e = AttributeError).
Proof.
  assert (Hinv : forall e, merge f M = inl e ->
            (e = AttributeError /\
             exists pre x post,
               M = pre ++ x :: post /\ forallb (passed_over (f_GUID f)) pre = true /\
               is_dict x = false) \/
            (e = TypeError /\
             exists pre d post,
               M = pre ++ JObj d :: post /\ matched (f_GUID f) pre d = true /\
               prior_versions d = inl TypeError) \/
            (e = AttributeError /\
             exists pre d post vs,
               M = pre ++ JObj d :: post /\ matched (f_GUID f) pre d = true /\
               prior_versions d = inr vs /\ forallb is_dict vs = false)).
  { intros e H%merge_raise_scan%scan_raise_inv.
    destruct H as [(pre & x & post & -> & Hpre & Hx & ->)|(pre & d & post & -> & Hm & U)].
    - left. split; [done|]. by exists pre, x, post.
    - right. apply update_entry_raise_inv in U as [[Hvs ->]|(vs & Hvs & Hrec & ->)].
      + left. split; [done|]. by exists pre, d, post.
      + right. split; [done|]. by exists pre, d, post, vs. }
  split; [|split].
  - split.
    + intros H. destruct (Hinv _ H) as [[? _]|[[_ ?]|[? _]]]; done.
    + intros (pre & d & post & -> & Hm & Hvs).
      rewrite (merge_matched _ _ _ _ Hm). unfold update_entry.
      rewrite update_plugin_versions. unfold prior_versions in Hvs.
      by rewrite Hvs.
  - split.
    + intros H. destruct (Hinv _ H) as [[_ ?]|[[? _]|[_ ?]]]; [by left|done|by right].
    + intros [(pre & x & post & -> & Hpre & Hx)|(pre & d & post & vs & -> & Hm & Hvs & Hrec)].
      * clear Hinv. induction pre as [|y pre IH].
        -- unfold merge. simpl. by destruct x.
        -- simpl in Hpre. apply andb_prop in Hpre as [Hy Hpre].
           simpl. rewrite (merge_cons_passed_over _ _ _ Hy). by rewrite (IH Hpre).
      * rewrite (merge_matched _ _ _ _ Hm). unfold update_entry.
        rewrite update_plugin_versions. unfold prior_versions in Hvs. rewrite Hvs.
        unfold bind_exn at 2.
        destruct (keep_other_versions (f_VERSION f) vs) as [e|kept] eqn:K.
        -- clear -K. revert e K. induction vs as [|v r IH]; intros e K; [discriminate K|].
           simpl in K. destruct v; try (by injection K as <-).
           simpl in K. destruct (keep_other_versions _ r) as [e'|rest];
             [|discriminate K].
           injection K as <-. by rewrite (IH e' eq_refl).
        -- apply keep_other_versions_inv in K as [K _]. congruence.
  - intros e H. destruct (Hinv _ H) as [[-> _]|[[-> _]|[-> _]]]; auto.
Qed.

(** X3: a merge that returns never removes or reorders entries: the
    manifest keeps its length or grows by one, it grows exactly when no
    entry has the submitted guid, and there is one position outside which
    every entry of the manifest is found again at its place. *)
Theorem merge_keeps_other_entries f M M' :
  merge f M = inr M' ->
  (length M' = if existsb (has_guid (f_GUID f)) M then length M else S (length M)) /\
  exists k,
    k <= length M /\
    forall i, i <> k -> i < length M -> M' !! i = M !! i.
Proof.
  intros H. apply merge_returns_cases in H
    as [[Hp ->]|(pre & d & post & vs & -> & Hm & _ & _ & ->)].
  - split.
    + assert (existsb (has_guid (f_GUID f)) M = false) as ->.
      { clear -Hp. induction M as [|x r IH]; simpl; [done|].
        simpl in Hp. apply andb_prop in Hp as [Hx Hr]. rewrite (IH Hr).
        unfold passed_over in Hx. apply andb_prop in Hx as [_ Hx].
        apply negb_true_iff in Hx. by rewrite Hx. }
      rewrite length_app. simpl. lia.
    + exists (length M). split; [lia|]. intros i _ Hi. by apply lookup_app_l.
  - apply andb_prop in Hm as [Hpre Hd]. split.
    + assert (existsb (has_guid (f_GUID f)) (pre ++ JObj d :: post) = true) as ->.
      { rewrite existsb_app. cbn [existsb]. rewrite Hd. by rewrite orb_true_r. }
      rewrite !length_app. reflexivity.
    + exists (length pre). split; [rewrite length_app; lia|].
      intros i Hi _. destruct (decide (i < length pre)) as [Hlt|Hge].
      * by rewrite !lookup_app_l.
      * rewrite !lookup_app_r by lia.
        destruct (i - length pre) as [|n] eqn:E; [lia|]. reflexivity.
Qed.

Lemma merge_keeps_other_entries_witness :
  exists M',
    merge sample_fields [sample_entry_A; JObj sample_dict_B; sample_entry_C] = inr M' /\
    length M' = 3 /\ M' !! 0 = Some sample_entry_A /\ M' !! 2 = Some sample_entry_C.
Proof.
  eexists. split; [reflexivity|].
  destruct (merge_keeps_other_entries sample_fields
              [sample_entry_A; JObj sample_dict_B; sample_entry_C] _ eq_refl)
    as [Hlen _].
  split; [exact Hlen|]. split; reflexivity.
Defined.

Lemma guid_of_passed_over g x :
  passed_over g x = true -> guid_of x <> Some (JStr g).
Proof.
  unfold passed_over, guid_of, has_guid. destruct x; try done.
  cbn [is_dict andb]. intros Hx%negb_true_iff E. rewrite E in Hx.
  cbn [Py.eq_str] in Hx. by rewrite String.eqb_refl in Hx.
Qed.

Lemma omap_guid_cons x l :
  omap guid_of (x :: l) =
    match guid_of x with
    | Some y => y :: omap guid_of l
    | None => omap guid_of l
    end.
Proof. reflexivity. Qed.

(** X4: a merge that returns keeps the guid values of the manifest
    distinct: when no two entries have the same guid value before, no two
    have the same one after. *)
Theorem merge_keeps_guids_distinct f M M' :
  NoDup (omap guid_of M) ->
  merge f M = inr M' ->
  NoDup (omap guid_of M').
Proof.
  intros Hnd H. apply merge_returns_cases in H
    as [[Hp ->]|(pre & d & post & vs & -> & Hm & _ & _ & ->)].
  - assert (Hnew : omap guid_of [new_entry f] = [JStr (f_GUID f)]) by reflexivity.
    rewrite omap_app, Hnew.
    apply NoDup_app. split; [exact Hnd|]. split; [|apply NoDup_singleton].
    intros x Hx Hx'. apply list_elem_of_singleton in Hx'. subst x.
    apply list_elem_of_omap in Hx as (e & He & Hg).
    rewrite forallb_forall in Hp. apply list_elem_of_In, Hp in He.
    by apply guid_of_passed_over in He.
  - apply andb_prop in Hm as [_ Hd]. apply has_guid_value in Hd.
    assert (Hsame : guid_of (merged_entry f d vs) = guid_of (JObj d)).
    { unfold merged_entry, guid_of. by rewrite written_guid, Hd. }
    rewrite omap_app in *. rewrite omap_guid_cons in *. by rewrite Hsame.
Qed.

Lemma merge_keeps_guids_distinct_witness :
  exists M',
    merge sample_fields [sample_entry_A; sample_entry_C] = inr M' /\
    NoDup (omap guid_of M').
Proof.
  eexists. split; [reflexivity|].
  apply (merge_keeps_guids_distinct sample_fields [sample_entry_A; sample_entry_C]);
    [|reflexivity].
  simpl. apply NoDup_cons. split; [|apply NoDup_singleton].
  rewrite list_elem_of_singleton. discriminate.
Defined.

(** X5: in the manifest a merge returns, the first entry of the submitted
    guid exists, holds the seven submitted descriptor values, and has a
    "versions" list that starts with the submitted record and holds no
    other record of the submitted version. *)
Theorem merge_then_lookup f M M' :
  merge f M = inr M' ->
  exists pre d post rest,
    M' = pre ++ JObj d :: post /\
    matched (f_GUID f) pre d = true /\
    (forall k v, In (k, v) (plugin f) -> Py.dict_get k d = Some v) /\
    Py.dict_get "versions" d = Some (JArr (JObj (version_entry f) :: rest)) /\
    forallb (fun v => negb (has_version (f_VERSION f) v)) rest = true.
Proof.
  intros H.
  assert (Hw : exists pre d0 vs post,
             forallb (passed_over (f_GUID f)) pre = true /\
             M' = pre ++ JObj (written f d0 vs) :: post).
  { apply merge_returns_cases in H
      as [[Hp ->]|(pre & d & post & vs & -> & Hm & _ & _ & ->)].
    - exists M, [], [], []. by rewrite new_entry_written.
    - apply andb_prop in Hm as [Hpre _]. by exists pre, d, vs, post. }
  destruct Hw as (pre & d0 & vs & post & Hpre & ->).
  exists pre, (written f d0 vs), post, (without_version (f_VERSION f) vs).
  split; [done|]. split; [|split; [|split]].
  - unfold matched. by rewrite Hpre, written_has_guid.
  - intros k v. apply written_descriptor.
  - apply written_versions.
  - apply without_version_clean.
Qed.

Lemma merge_then_lookup_witness :
  exists pre d post rest,
    merge sample_fields [sample_entry_A; sample_entry_C] = inr (pre ++ JObj d :: post) /\
    matched "g-1" pre d = true /\
    Py.dict_get "name" d = Some (JStr "JellyTV") /\
    Py.dict_get "versions" d = Some (JArr (JObj (version_entry sample_fields) :: rest)).
Proof.
  destruct (merge_then_lookup sample_fields [sample_entry_A; sample_entry_C] _ eq_refl)
    as (pre & d & post & rest & Heq & Hm & Hdesc & Hver & _).
  exists pre, d, post, rest. split; [by rewrite <- Heq|]. split; [exact Hm|].
  split; [|exact Hver]. apply Hdesc. simpl. tauto.
Defined.

Lemma without_version_length ver vs :
  length (without_version ver vs) + length (List.filter (has_version ver) vs) = length vs.
Proof.
  unfold without_version. induction vs as [|v r IH]; simpl; [done|].
  destruct (has_version ver v); simpl; lia.
Qed.

Lemma has_version_value ver v :
  has_version ver v = true -> version_of v = Some (JStr ver).
Proof.
  destruct v; try discriminate. simpl.
  destruct (Py.dict_get "version" fields) as [[]|]; simpl; try discriminate.
  by intros ->%String.eqb_eq.
Qed.

Lemma has_version_none ver vs :
  existsb (has_version ver) vs = false -> List.filter (has_version ver) vs = [].
Proof.
  induction vs as [|v r IH]; simpl; [done|].
  intros [Hv Hr]%orb_false_elim. rewrite Hv. by apply IH.
Qed.

Lemma has_version_once ver vs :
  NoDup (omap version_of vs) -> length (List.filter (has_version ver) vs) <= 1.
Proof.
  induction vs as [|v r IH]; simpl; [lia|].
  destruct (has_version ver v) eqn:E.
  - rewrite (has_version_value _ _ E). intros [Hin _]%NoDup_cons.
    rewrite has_version_none; [simpl; lia|].
    apply not_true_is_false. intros (x & Hx & Hv)%existsb_exists.
    apply Hin, list_elem_of_omap. exists x.
    split; [by apply list_elem_of_In|by apply has_version_value].
  - destruct (version_of v); [intros [_ H]%NoDup_cons|intros H]; by apply IH.
Qed.

(** X6: the "versions" list of the matched entry grows by at most one
    record. It grows by exactly one when no prior record has the
    submitted version, and keeps its length when the prior records have
    distinct version values and one of them has the submitted version. *)
Theorem merge_versions_length f pre d post vs :
  matched (f_GUID f) pre d = true ->
  prior_versions d = inr vs ->
  forallb is_dict vs = true ->
  exists d' new,
    merge f (pre ++ JObj d :: post) = inr (pre ++ JObj d' :: post) /\
    Py.dict_get "versions" d' = Some (JArr new) /\
    length new <= S (length vs) /\
    (existsb (has_version (f_VERSION f)) vs = false -> length new = S (length vs)) /\
    (NoDup (omap version_of vs) ->
     existsb (has_version (f_VERSION f)) vs = true ->
     length new = length vs).
Proof.
  intros Hm Hvs Hrec. eexists. eexists. split; [|split].
  - rewrite (merge_matched _ _ _ _ Hm), (update_entry_ok _ _ _ Hvs Hrec).
    reflexivity.
  - apply dict_get_set_eq.
  - pose proof (without_version_length (f_VERSION f) vs) as Hlen.
    simpl. split; [lia|]. split.
    + intros Hnone%has_version_none. rewrite Hnone in Hlen. simpl in Hlen. lia.
    + intros Hnd%(has_version_once (f_VERSION f)) Hsome.
      destruct (List.filter (has_version (f_VERSION f)) vs) as [|x l] eqn:F.
      * apply existsb_exists in Hsome as (x & Hx & Hv).
        assert (Hin : In x (List.filter (has_version (f_VERSION f)) vs))
          by (apply filter_In; done).
        rewrite F in Hin. destruct Hin.
      * simpl in *. lia.
Qed.

Lemma merge_versions_length_witness :
  exists d' new,
    merge sample_fields [sample_entry_A; JObj sample_dict_B; sample_entry_C] =
      inr [sample_entry_A; JObj d'; sample_entry_C] /\
    Py.dict_get "versions" d' = Some (JArr new) /\
    length new = 2.
Proof.
  destruct (merge_versions_length sample_fields
              [sample_entry_A] sample_dict_B [sample_entry_C]
              [sample_record "2.0" "s2"; sample_record "1.0" "s1"]
              eq_refl eq_refl eq_refl)
    as (d' & new & Hmerge & Hget & _ & _ & Hsame).
  exists d', new. split; [exact Hmerge|]. split; [exact Hget|].
  apply Hsame; [|reflexivity].
  simpl. apply NoDup_cons. split; [|apply NoDup_singleton].
  rewrite list_elem_of_singleton. discriminate.
Defined.

(** A manifest the merge returns holds an entry the merge has written,
    after entries of other guids. *)
Lemma merge_returns_written f M M' :
  merge f M = inr M' ->
  exists pre d0 vs post,
    forallb (passed_over (f_GUID f)) pre = true /\
    forallb is_dict vs = true /\
    M' = pre ++ JObj (written f d0 vs) :: post.
Proof.
  intros H. apply merge_returns_cases in H
    as [[Hp ->]|(pre & d & post & vs & -> & Hm & _ & Hrec & ->)].
  - exists M, [], [], []. by rewrite new_entry_written.
  - apply andb_prop in Hm as [Hpre _]. by exists pre, d, vs, post.
Qed.

(** X7: two submissions of the same guid with different versions, merged
    one after the other, leave an entry with the descriptor of the second
    and a "versions" list that starts with the record of the second, then
    the record of the first, and holds no other record of either version. *)
Theorem merge_accumulates_versions f1 f2 M M1 :
  f_GUID f2 = f_GUID f1 ->
  f_VERSION f2 <> f_VERSION f1 ->
  merge f1 M = inr M1 ->
  exists pre d post rest,
    merge f2 M1 = inr (pre ++ JObj d :: post) /\
    matched (f_GUID f2) pre d = true /\
    (forall k v, In (k, v) (plugin f2) -> Py.dict_get k d = Some v) /\
    Py.dict_get "versions" d =
      Some (JArr (JObj (version_entry f2) :: JObj (version_entry f1) :: rest)) /\
    forallb (fun v => negb (has_version (f_VERSION f2) v)
                      && negb (has_version (f_VERSION f1) v)) rest = true.
Proof.
  intros Hg Hv H.
  apply merge_returns_written in H as (pre & d0 & vs & post & Hpre & Hrec & ->).
  assert (Hm : matched (f_GUID f2) pre (written f1 d0 vs) = true).
  { unfold matched. by rewrite Hg, Hpre, written_has_guid. }
  assert (Hvs : prior_versions (written f1 d0 vs) =
                inr (JObj (version_entry f1) :: without_version (f_VERSION f1) vs)).
  { unfold prior_versions. by rewrite written_versions. }
  assert (Hrec' : forallb is_dict
                    (JObj (version_entry f1) :: without_version (f_VERSION f1) vs) = true).
  { simpl. by apply without_version_dicts. }
  exists pre, (written f2 (written f1 d0 vs)
                 (JObj (version_entry f1) :: without_version (f_VERSION f1) vs)),
         post,
         (without_version (f_VERSION f2) (without_version (f_VERSION f1) vs)).
  split; [|split; [|split; [|split]]].
  - by rewrite (merge_matched _ _ _ _ Hm), (update_entry_ok _ _ _ Hvs Hrec').
  - unfold matched. by rewrite written_has_guid, Hg, Hpre.
  - intros k v. apply written_descriptor.
  - rewrite written_versions. do 3 f_equal. unfold without_version at 1. simpl.
    apply not_eq_sym, String.eqb_neq in Hv. by rewrite Hv.
  - clear. unfold without_version. induction vs as [|v r IH]; simpl; [done|].
    destruct (has_version (f_VERSION f1) v) eqn:E1; simpl; [done|].
    destruct (has_version (f_VERSION f2) v) eqn:E2; simpl; [done|].
    by rewrite E1, E2.
Qed.

Lemma merge_accumulates_versions_witness :
  exists pre d post rest,
    merge (mkFields "JellyTV" "g-1" "" "" "" "" "" "1.1" "" "" "" "")
          [new_entry sample_fields] = inr (pre ++ JObj d :: post) /\
    Py.dict_get "versions" d =
      Some (JArr (JObj (version_entry (mkFields "JellyTV" "g-1" "" "" "" "" "" "1.1" "" "" "" ""))
                  :: JObj (version_entry sample_fields) :: rest)).
Proof.
  destruct (merge_accumulates_versions sample_fields
              (mkFields "JellyTV" "g-1" "" "" "" "" "" "1.1" "" "" "" "")
              [] [new_entry sample_fields] eq_refl)
    as (pre & d & post & rest & Hmerge & _ & _ & Hver & _);
    [discriminate|reflexivity|].
  by exists pre, d, post, rest.
Defined.

Lemma has_guid_other g1 g2 d :
  g1 <> g2 -> has_guid g1 (JObj d) = true -> passed_over g2 (JObj d) = true.
Proof.
  intros Hne Hd%has_guid_value. unfold passed_over. simpl. rewrite Hd. simpl.
  apply String.eqb_neq in Hne. by rewrite Hne.
Qed.

Lemma update_entry_other f g d d' :
  f_GUID f <> g -> update_entry f d = inr d' -> passed_over g (JObj d') = true.
Proof.
  intros Hne (vs & _ & _ & ->)%update_entry_inv.
  apply (has_guid_other (f_GUID f)); [exact Hne|apply written_has_guid].
Qed.

Lemma merge_returns_dict f x rest M' :
  merge f (x :: rest) = inr M' -> exists d, x = JObj d.
Proof.
  unfold merge. simpl. destruct x; try discriminate. eauto.
Qed.

(** One step of the proof that two merges commute: the head is matched
    by the first submission and passed over by the second. *)
Lemma merge_commutes_at_match f1 f2 d rest M1 M2 :
  f_GUID f1 <> f_GUID f2 ->
  has_guid (f_GUID f1) (JObj d) = true ->
  merge f1 (JObj d :: rest) = inr M1 ->
  merge f2 (JObj d :: rest) = inr M2 ->
  merge f2 M1 = merge f1 M2 /\ exists M12, merge f2 M1 = inr M12.
Proof.
  intros Hne Hd H1 H2.
  rewrite (merge_cons_matched _ _ _ Hd) in H1.
  destruct (update_entry f1 d) as [e|d1] eqn:U1; [discriminate H1|].
  injection H1 as <-.
  rewrite (merge_cons_passed_over _ _ _ (has_guid_other _ _ _ Hne Hd)) in H2.
  destruct (merge f2 rest) as [e|R2] eqn:E2; [discriminate H2|].
  injection H2 as <-.
  rewrite (merge_cons_passed_over _ _ _ (update_entry_other _ _ _ _ Hne U1)), E2.
  rewrite (merge_cons_matched _ _ _ Hd), U1. split; [reflexivity|eauto].
Qed.

(** X8: two submissions of different guids, at least one of which has an
    entry in the manifest, can be merged in either order: when each merge
    returns on the manifest, the two orders return the same manifest. *)
Theorem merge_commutes f1 f2 M M1 M2 :
  f_GUID f1 <> f_GUID f2 ->
  existsb (has_guid (f_GUID f1)) M || existsb (has_guid (f_GUID f2)) M = true ->
  merge f1 M = inr M1 ->
  merge f2 M = inr M2 ->
  merge f2 M1 = merge f1 M2 /\ exists M12, merge f2 M1 = inr M12.
Proof.
  intros Hne. revert M1 M2.
  induction M as [|x rest IH]; intros M1 M2 Hex H1 H2; [discriminate Hex|].
  destruct (merge_returns_dict _ _ _ _ H1) as [d ->].
  destruct (has_guid (f_GUID f1) (JObj d)) eqn:G1.
  { by apply (merge_commutes_at_match f1 f2 d rest). }
  destruct (has_guid (f_GUID f2) (JObj d)) eqn:G2.
  { destruct (merge_commutes_at_match f2 f1 d rest M2 M1 (not_eq_sym Hne) G2 H2 H1)
      as [Heq [M12 H12]].
    split; [by symmetry|]. exists M12. by rewrite <- Heq. }
  assert (P1 : passed_over (f_GUID f1) (JObj d) = true)
    by (unfold passed_over; by rewrite G1).
  assert (P2 : passed_over (f_GUID f2) (JObj d) = true)
    by (unfold passed_over; by rewrite G2).
  rewrite (merge_cons_passed_over _ _ _ P1) in H1.
  rewrite (merge_cons_passed_over _ _ _ P2) in H2.
  destruct (merge f1 rest) as [e|R1] eqn:E1; [discriminate H1|].
  destruct (merge f2 rest) as [e|R2] eqn:E2; [discriminate H2|].
  injection H1 as <-. injection H2 as <-.
  cbn [existsb] in Hex. rewrite G1, G2 in Hex. cbn [orb] in Hex.
  destruct (IH R1 R2 Hex eq_refl eq_refl) as [Heq [M12 H12]].
  rewrite (merge_cons_passed_over _ _ _ P2), (merge_cons_passed_over _ _ _ P1).
  rewrite <- Heq, H12. split; [reflexivity|eauto].
Qed.

Lemma merge_commutes_witness :
  merge (mkFields "A2" "g-0" "" "" "" "" "" "3.0" "" "" "" "")
        [sample_entry_A; sample_entry_C; new_entry sample_fields] =
  merge sample_fields
        [JObj (written (mkFields "A2" "g-0" "" "" "" "" "" "3.0" "" "" "" "")
                 [("guid", JStr "g-0"); ("name", JStr "A")] []);
         sample_entry_C].
Proof.
  exact (proj1 (merge_commutes sample_fields
                  (mkFields "A2" "g-0" "" "" "" "" "" "3.0" "" "" "" "")
                  [sample_entry_A; sample_entry_C] _ _
                  ltac:(discriminate) eq_refl eq_refl eq_refl)).
Defined.

(** * Further properties of the load and of a whole run *)

Section LoadMore.

Variable json_loads : string -> exn + json.

Lemma load_manifest_dir path w :
  w_fs w !! path = Some Dir ->
  load_manifest json_loads path w =
    (if (w_dir_size w path =? 0)%N then inr [] else inl (OSError IsADirectoryError), w).
Proof.
  intros H. unfold load_manifest.
  rewrite (bind_io_ret _ _ _ _ _ (exists_eval path w)), H.
  rewrite bool_decide_eq_true_2 by eauto. cbn [negb].
  assert (Hsize : OS.st_size path w = (inr (w_dir_size w path), w)).
  { unfold OS.st_size. by rewrite H. }
  rewrite (bind_io_ret _ _ _ _ _ Hsize).
  destruct (w_dir_size w path =? 0)%N; [reflexivity|].
  unfold try_except, bind_io, Text.read, bind_io, OS.read_bytes, OS.get_fs, bind_io.
  cbv beta iota. rewrite H. reflexivity.
Qed.

(** The result of the load and the world it leaves, by what is at the path. *)
Lemma load_manifest_outcome path w :
  snd (load_manifest json_loads path w) = w /\
  forall e, fst (load_manifest json_loads path w) = inl e ->
            load_exception json_loads e.
Proof.
  destruct (w_fs w !! path) as [[bytes|]|] eqn:H.
  - destruct (decide (bytes = "")) as [->|Hne].
    + rewrite (load_manifest_empty _ _ _ H). split; [done|discriminate].
    + rewrite (load_manifest_reads _ _ _ _ H Hne). unfold Text.decode_utf8.
      destruct (Text.utf8_valid bytes).
      * destruct (json_loads (Text.universal_newlines bytes)) as [e|data] eqn:L.
        -- assert (Hraise : e <> JSONDecodeError -> load_exception json_loads e).
           { intros He. right. right. split; [exact He|eauto]. }
           destruct e; (split; [done|]); try discriminate;
             intros e' [= <-]; by apply Hraise.
        -- by destruct data; (split; [done|discriminate]).
      * split; [done|]. intros e [= <-]. by left.
  - rewrite (load_manifest_dir _ _ H).
    destruct (w_dir_size w path =? 0)%N; (split; [done|]); [discriminate|].
    intros e [= <-]. right. by left.
  - rewrite (load_manifest_absent _ _ _ H). split; [done|discriminate].
Qed.

End LoadMore.


Section MainCases.

Variable json_loads : string -> exn + json.
Variable json_dumps : nat -> json -> string.

Lemma main_stops_at_missing w name :
  first_missing (w_environ w) = Some name ->
  main json_loads json_dumps w = (inl (SystemExit 6), complained name w).
Proof.
  intros H. unfold first_missing, required in H. simpl in H. unfold main.
  read_variable w "MANIFEST_PATH" H; [|reflexivity].
  read_variable w "NAME" H; [|reflexivity].
  read_variable w "GUID" H; [|reflexivity].
  read_variable w "OVERVIEW" H; [|reflexivity].
  read_variable w "DESCRIPTION" H; [|reflexivity].
  read_variable w "CATEGORY" H; [|reflexivity].
  read_variable w "OWNER" H; [|reflexivity].
  read_variable w "IMAGE_URL" H; [|reflexivity].
  read_variable w "VERSION" H; [|reflexivity].
  read_variable w "TARGET_ABI" H; [|reflexivity].
  read_variable w "DOWNLOAD_URL" H; [|reflexivity].
  read_variable w "CHECKSUM" H; [|reflexivity].
  read_variable w "TIMESTAMP" H; [|reflexivity].
  discriminate H.
Qed.

Lemma none_missing environ :
  first_missing environ = None -> exists p f, variables_set environ p f.
Proof.
  unfold first_missing, required, variables_set. simpl.
  repeat match goal with
         | |- context [bool_decide (environ !! ?n = None)] =>
             destruct (environ !! n) as [?v|] eqn:?E; simpl; [|discriminate]
         end.
  intros _.
  match goal with
  | |- exists p f, Some ?p0 = Some p /\ _ =>
      exists p0
  end.
  eexists (mkFields _ _ _ _ _ _ _ _ _ _ _ _). simpl. repeat split.
Qed.

Lemma variables_set_none_missing environ p f :
  variables_set environ p f -> first_missing environ = None.
Proof.
  intros (H0 & H1 & H2 & H3 & H4 & H5 & H6 & H7 & H8 & H9 & H10 & H11 & H12).
  unfold first_missing, required. simpl.
  by rewrite H0, H1, H2, H3, H4, H5, H6, H7, H8, H9, H10, H11, H12.
Qed.

(** What a run of [main] comes to. *)
Lemma main_cases w :
  (exists name,
      first_missing (w_environ w) = Some name /\
      main json_loads json_dumps w = (inl (SystemExit 6), complained name w)) \/
  (exists p f,
      variables_set (w_environ w) p f /\
      ((exists e,
           fst (load_manifest json_loads (Pathlib.of_string p) w) = inl e /\
           main json_loads json_dumps w = (inl e, w)) \/
       (exists M e,
           fst (load_manifest json_loads (Pathlib.of_string p) w) = inr M /\
           merge f M = inl e /\
           main json_loads json_dumps w = (inl e, w)) \/
       (exists M M',
           fst (load_manifest json_loads (Pathlib.of_string p) w) = inr M /\
           merge f M = inr M' /\
           main json_loads json_dumps w =
             persist json_dumps (Pathlib.of_string p) M' w))).
Proof.
  destruct (first_missing (w_environ w)) as [name|] eqn:Hm.
  - left. exists name. split; [done|]. by apply main_stops_at_missing.
  - right. destruct (none_missing _ Hm) as (p & f & Hset). exists p, f.
    split; [exact Hset|]. rewrite (main_with_variables _ _ _ _ _ Hset).
    destruct (load_manifest_outcome json_loads (Pathlib.of_string p) w) as [Hw _].
    unfold bind_io.
    destruct (load_manifest json_loads (Pathlib.of_string p) w) as [[e|M] w1].
    + simpl in Hw. subst w1. left. by exists e.
    + simpl in Hw. subst w1. right. unfold lift.
      destruct (merge f M) as [e|M'] eqn:Hmerge.
      * left. by exists M, e.
      * right. by exists M, M'.
Qed.

End MainCases.

(** ** Relations that every step keeps *)

Section Keeps.

Variable R : World -> World -> Prop.
Hypothesis R_refl : forall w, R w w.
Hypothesis R_trans : forall w1 w2 w3, R w1 w2 -> R w2 w3 -> R w1 w3.

Lemma keeps_ret {A : Type} (a : A) : keeps R (ret a).
Proof. intros w. apply R_refl. Qed.




End Keeps.

Section RaisesOnly.

Variable P : exn -> bool.

Lemma raises_only_ret {A : Type} (a : A) : raises_only P (ret a).
Proof. intros w e. discriminate. Qed.




End RaisesOnly.

Section PersistMore.

Variable json_dumps : nat -> json -> string.

(** *** Only [OSError] *)







(** *** Nothing else is removed or changed *)












End PersistMore.

Section PersistSteps.

Variable json_dumps : nat -> json -> string.

Lemma persist_split path manifest w :
  persist json_dumps path manifest w =
    (io _ <- prepare path (rendered json_dumps manifest);
     OS.replace (tmp_path path) path) w.
Proof.
  unfold persist, prepare, bind_io. cbv zeta.
  destruct (mkdir_parents _ _ w) as [[e|[]] w1]; [reflexivity|].
  destruct (OS.open_w _ w1) as [[e|[]] w2]; [reflexivity|].
  by destruct (OS.flush _ _ w2) as [[e|[]] w3].
Qed.

Lemma confined_prepare path text : confined (scratch path) (prepare path text).
Proof.
  unfold prepare. apply confined_bind.
  - eapply confined_mono; [|apply confined_mkdir_parents].
    intros q Hq. left. by rewrite length_rev in Hq.
  - intros _. apply confined_bind.
    + eapply confined_mono; [|apply confined_open_w]. intros q <-. by right.
    + intros _. eapply confined_mono; [|apply confined_flush]. intros q <-. by right.
Qed.

Lemma prepare_post path text w w3 :
  prepare path text w = (inr tt, w3) ->
  w_fs w3 !! tmp_path path = Some (File text) /\
  exists rest, w_past w3 = w_fs w3 :: rest.
Proof.
  unfold prepare, bind_io.
  destruct (mkdir_parents _ _ w) as [[e|[]] w1]; [discriminate|].
  destruct (OS.open_w _ w1) as [[e|[]] w2]; [discriminate|].
  intros [= <-]. simpl. split; [apply lookup_insert_eq|eauto].
Qed.

Lemma prepare_ok path text w :
  well_formed path ->
  dirs_ok (w_fs w) (p_root (Pathlib.parent (tmp_path path)))
          (rev (p_parts (Pathlib.parent (tmp_path path)))) = true ->
  is_dir_at (w_fs w) (tmp_path path) = false ->
  exists w3, prepare path text w = (inr tt, w3).
Proof.
  intros Hp Hok Htmp. unfold prepare.
  set (dir := Pathlib.parent (tmp_path path)) in *.
  destruct (mkdir_parents_ok _ _ _ Hok) as (w1 & H1 & Hdir1).
  rewrite rev_involutive in Hdir1.
  assert (Hd : w_fs w1 !! dir = Some Dir) by (by destruct dir).
  rewrite (bind_io_ret _ _ _ _ _ H1).
  assert (Htmp1 : is_dir_at (w_fs w1) (tmp_path path) = false).
  { pose proof (confined_mkdir_parents (p_root dir) (rev (p_parts dir)) w)
      as (_ & _ & _ & F & _).
    rewrite H1 in F. cbn [snd] in F. unfold is_dir_at in *.
    rewrite F; [exact Htmp|]. rewrite length_rev. by apply tmp_not_shallow. }
  rewrite (bind_io_ret _ _ _ _ _ (open_w_ok _ _ Htmp1 Hd)).
  eexists. reflexivity.
Qed.

(** The target through a run of [persist]. *)
Lemma persist_history path manifest w :
  well_formed path ->
  target_history path (File (rendered json_dumps manifest))
    (returned (fst (persist json_dumps path manifest w)))
    w (snd (persist json_dumps path manifest w)) /\
  (returned (fst (persist json_dumps path manifest w)) = true ->
   w_fs (snd (persist json_dumps path manifest w)) !! tmp_path path = None).
Proof.
  intros Hp. rewrite persist_split. unfold bind_io.
  set (text := rendered json_dumps manifest).
  pose proof (confined_prepare path text w) as C.
  destruct (prepare path text w) as [[e|[]] w3] eqn:P; cbn [snd] in C.
  - destruct (touches_keeps _ _ _ _ (path_not_scratch path Hp) C)
      as (Hsame & states & Hpast & Hstates).
    cbn [fst snd returned]. split; [|discriminate]. split; [|exact Hsame].
    exists states. split; [exact Hpast|].
    eapply Forall_impl; [exact Hstates|]. by left.
  - destruct (touches_keeps _ _ _ _ (path_not_scratch path Hp) C)
      as (Hsame & states & Hpast & Hstates).
    destruct (prepare_post _ _ _ _ P) as [Htmp _].
    rewrite (replace_eval _ _ _ _ Htmp).
    destruct (is_dir_at (w_fs w3) path).
    + cbn [fst snd returned]. split; [|discriminate]. split; [|exact Hsame].
      exists states. split; [exact Hpast|].
      eapply Forall_impl; [exact Hstates|]. by left.
    + cbn [fst snd returned OS.set_fs w_fs w_past]. split; [split|].
      * exists (<[path := File text]> (delete (tmp_path path) (w_fs w3)) :: states).
        split; [by rewrite Hpast|]. constructor.
        -- right. apply lookup_insert_eq.
        -- eapply Forall_impl; [exact Hstates|]. by left.
      * apply lookup_insert_eq.
      * intros _.
        rewrite lookup_insert_ne by apply not_eq_sym, (tmp_path_differs path Hp).
        apply lookup_delete_eq.
Qed.

Lemma persist_runs path manifest w :
  well_formed path ->
  can_persist (w_fs w) path = true ->
  returned (fst (persist json_dumps path manifest w)) = true.
Proof.
  intros Hp [[Hok Hpath%negb_true_iff]%andb_prop Htmp%negb_true_iff]%andb_prop.
  rewrite persist_split. unfold bind_io.
  set (text := rendered json_dumps manifest).
  destruct (prepare_ok path text w Hp Hok Htmp) as [w3 P].
  pose proof (confined_prepare path text w) as C. rewrite P in C |- *.
  cbn [snd] in C.
  destruct (touches_keeps _ _ _ _ (path_not_scratch path Hp) C) as (Hsame & _).
  destruct (prepare_post _ _ _ _ P) as [Htmp3 _].
  rewrite (replace_eval _ _ _ _ Htmp3).
  unfold is_dir_at in *. rewrite Hsame.
  by destruct (w_fs w !! path) as [[c|]|].
Qed.

(** *** Nothing is printed *)

Lemma quiet_refl w : quiet w w.
Proof. by split. Qed.

Lemma quiet_trans w1 w2 w3 : quiet w1 w2 -> quiet w2 w3 -> quiet w1 w3.
Proof. intros [? ?] [? ?]. split; congruence. Qed.

Lemma quiet_touches K w w' : touches_only K w w' -> quiet w w'.
Proof. intros (E & _ & S & _). by split. Qed.

Lemma quiet_persist path manifest : keeps quiet (persist json_dumps path manifest).
Proof.
  intros w. rewrite persist_split. unfold bind_io.
  pose proof (confined_prepare path (rendered json_dumps manifest) w) as C.
  destruct (prepare _ _ w) as [[e|[]] w3]; cbn [snd] in C.
  - by apply quiet_touches in C.
  - apply quiet_touches in C. eapply quiet_trans; [exact C|].
    unfold OS.replace, OS.get_fs, bind_io, raise. cbv beta iota.
    destruct (w_fs w3 !! tmp_path path) as [[c|]|];
      destruct (w_fs w3 !! path) as [[c'|]|]; by split.
Qed.

End PersistSteps.


(** * Further properties of a whole run *)

Section MainMore.

Variable json_loads : string -> exn + json.
Variable json_dumps : nat -> json -> string.


Lemma returned_unit (r : exn + unit) : returned r = true -> r = inr tt.
Proof. by destruct r as [e|[]]. Qed.

Lemma main_after_load w p f M :
  variables_set (w_environ w) p f ->
  fst (load_manifest json_loads (Pathlib.of_string p) w) = inr M ->
  main json_loads json_dumps w =
    (io merged <- lift (merge f M);
     persist json_dumps (Pathlib.of_string p) merged) w.
Proof.
  intros Hset Hload. rewrite (main_with_variables _ _ _ _ _ Hset).
  destruct (load_manifest_outcome json_loads (Pathlib.of_string p) w) as [Hw _].
  unfold bind_io at 1.
  destruct (load_manifest json_loads (Pathlib.of_string p) w) as [r w1].
  simpl in Hw, Hload. by subst.
Qed.


Lemma variables_set_path w p p' f :
  w_environ w !! "MANIFEST_PATH" = Some p ->
  variables_set (w_environ w) p' f -> p' = p.
Proof. intros H [H' _]. congruence. Qed.

End MainMore.



(** X11: with every variable set, a manifest that loads and merges, and a
    file system that lets it be written, the run returns with status 0:
    the manifest file holds [json.dumps] of the merged manifest with
    indent 2 and a line feed, the temporary file is gone, and nothing was
    printed. *)
Theorem main_publishes json_loads json_dumps w p f M M' :
  variables_set (w_environ w) p f ->
  fst (load_manifest json_loads (Pathlib.of_string p) w) = inr M ->
  merge f M = inr M' ->
  can_persist (w_fs w) (Pathlib.of_string p) = true ->
  fst (main json_loads json_dumps w) = inr tt /\
  exit_status (fst (main json_loads json_dumps w)) = 0%Z /\
  w_fs (snd (main json_loads json_dumps w)) !! Pathlib.of_string p =
    Some (File (json_dumps 2 (JArr M') +:+ newline)) /\
  w_fs (snd (main json_loads json_dumps w)) !! tmp_path (Pathlib.of_string p) = None /\
  w_stderr (snd (main json_loads json_dumps w)) = w_stderr w.
Proof.
  intros Hset Hload Hmerge Hcan.
  rewrite (main_after_load _ _ _ _ _ _ Hset Hload).
  unfold bind_io, lift. rewrite Hmerge.
  pose proof (of_string_well_formed p) as Hp.
  pose proof (persist_runs json_dumps _ M' w Hp Hcan) as Hrun.
  destruct (persist_history json_dumps _ M' w Hp) as [[_ Hfinal] Htmp].
  rewrite Hrun in Hfinal. rewrite (returned_unit _ Hrun).
  split; [done|]. split; [done|]. split; [exact Hfinal|].
  split; [by apply Htmp|]. apply (quiet_persist json_dumps).
Qed.

Lemma main_publishes_witness :
  fst (main sample_loads sample_dumps (sample_world sample_vars "[]")) = inr tt /\
  w_fs (snd (main sample_loads sample_dumps (sample_world sample_vars "[]")))
    !! sample_path =
    Some (File (sample_dumps 2 (JArr [new_entry sample_fields]) +:+ newline)).
Proof.
  destruct (main_publishes sample_loads sample_dumps (sample_world sample_vars "[]")
              "dist/manifest.json" sample_fields [] [new_entry sample_fields])
    as (Hrun & _ & Hfile & _); try (vm_compute; reflexivity).
  - vm_compute. repeat split.
  - split; [exact Hrun|exact Hfile].
Defined.

(** X12: when the manifest file is missing, empty, or holds a text that
    [json.loads] rejects with [JSONDecodeError], a run with every variable
    set and a file system that lets the manifest be written starts
    afresh: it returns, and the manifest file holds the submitted entry
    alone, whatever it held before. *)
Theorem main_starts_afresh json_loads json_dumps w p f :
  variables_set (w_environ w) p f ->
  (w_fs w !! Pathlib.of_string p = None \/
   w_fs w !! Pathlib.of_string p = Some (File "") \/
   exists bytes,
     w_fs w !! Pathlib.of_string p = Some (File bytes) /\ bytes <> "" /\
     Text.utf8_valid bytes = true /\
     json_loads (Text.universal_newlines bytes) = inl JSONDecodeError) ->
  can_persist (w_fs w) (Pathlib.of_string p) = true ->
  fst (main json_loads json_dumps w) = inr tt /\
  w_fs (snd (main json_loads json_dumps w)) !! Pathlib.of_string p =
    Some (File (json_dumps 2 (JArr [new_entry f]) +:+ newline)).
Proof.
  intros Hset Hfile Hcan.
  assert (Hload : fst (load_manifest json_loads (Pathlib.of_string p) w) = inr []).
  { destruct Hfile as [H|[H|(bytes & H & Hne & Hv & Hl)]].
    - by rewrite (load_manifest_absent _ _ _ H).
    - by rewrite (load_manifest_empty _ _ _ H).
    - rewrite (load_manifest_reads _ _ _ _ H Hne). unfold Text.decode_utf8.
      by rewrite Hv, Hl. }
  rewrite (main_after_load _ _ _ _ _ _ Hset Hload).
  unfold bind_io, lift. change (merge f []) with (@inr exn _ [new_entry f]).
  cbv beta iota.
  pose proof (of_string_well_formed p) as Hp.
  pose proof (persist_runs json_dumps _ [new_entry f] w Hp Hcan) as Hrun.
  destruct (persist_history json_dumps _ [new_entry f] w Hp) as [[_ Hfinal] _].
  rewrite Hrun in Hfinal. by rewrite (returned_unit _ Hrun).
Qed.

Lemma main_starts_afresh_witness :
  fst (main sample_loads sample_dumps (sample_world sample_vars "{")) = inr tt /\
  w_fs (snd (main sample_loads sample_dumps (sample_world sample_vars "{")))
    !! sample_path =
    Some (File (sample_dumps 2 (JArr [new_entry sample_fields]) +:+ newline)).
Proof.
  apply (main_starts_afresh sample_loads sample_dumps (sample_world sample_vars "{")
           "dist/manifest.json" sample_fields).
  - vm_compute. repeat split.
  - right. right. exists "{". split; [vm_compute; reflexivity|].
    split; [discriminate|]. split; reflexivity.
  - vm_compute. reflexivity.
Defined.

(** X13: whatever a run meets, the manifest file is never seen half
    written: every state the file system goes through holds at the path
    of MANIFEST_PATH what it held before the run or the whole text of a
    manifest; a run that raises leaves the file as it was, and a run that
    returns leaves the whole text of a manifest and no temporary file. *)
Theorem main_keeps_or_replaces json_loads json_dumps w p :
  w_environ w !! "MANIFEST_PATH" = Some p ->
  (exists states,
     w_past (snd (main json_loads json_dumps w)) = states ++ w_past w /\
     Forall (fun fs =>
               fs !! Pathlib.of_string p = w_fs w !! Pathlib.of_string p \/
               exists M',
                 fs !! Pathlib.of_string p = Some (File (rendered json_dumps M')))
            states) /\
  (returned (fst (main json_loads json_dumps w)) = false ->
   w_fs (snd (main json_loads json_dumps w)) !! Pathlib.of_string p =
     w_fs w !! Pathlib.of_string p) /\
  (returned (fst (main json_loads json_dumps w)) = true ->
   w_fs (snd (main json_loads json_dumps w)) !! tmp_path (Pathlib.of_string p) = None /\
   exists M',
     w_fs (snd (main json_loads json_dumps w)) !! Pathlib.of_string p =
       Some (File (rendered json_dumps M'))).
Proof.
  intros Hpath.
  assert (Hstill : forall e w',
            w_past w' = w_past w -> w_fs w' = w_fs w ->
            main json_loads json_dumps w = (inl e, w') ->
            (exists states,
               w_past (snd (main json_loads json_dumps w)) = states ++ w_past w /\
               Forall (fun fs =>
                         fs !! Pathlib.of_string p = w_fs w !! Pathlib.of_string p \/
                         exists M',
                           fs !! Pathlib.of_string p =
                             Some (File (rendered json_dumps M')))
                      states) /\
            (returned (fst (main json_loads json_dumps w)) = false ->
             w_fs (snd (main json_loads json_dumps w)) !! Pathlib.of_string p =
               w_fs w !! Pathlib.of_string p) /\
            (returned (fst (main json_loads json_dumps w)) = true ->
             w_fs (snd (main json_loads json_dumps w))
               !! tmp_path (Pathlib.of_string p) = None /\
             exists M',
               w_fs (snd (main json_loads json_dumps w)) !! Pathlib.of_string p =
                 Some (File (rendered json_dumps M')))).
  { intros e w' Hpast Hfs ->. cbn [fst snd returned].
    split; [|split; [by rewrite Hfs|discriminate]].
    exists []. split; [exact Hpast|constructor]. }
  destruct (main_cases json_loads json_dumps w)
    as [(name & _ & Hmain)|(p' & f & Hset & [(e & _ & Hmain)|[(M & e & _ & _ & Hmain)
                                                             |(M & M' & _ & _ & Hmain)]])].
  - refine (Hstill _ _ _ _ Hmain); reflexivity.
  - refine (Hstill _ _ _ _ Hmain); reflexivity.
  - refine (Hstill _ _ _ _ Hmain); reflexivity.
  - rewrite Hmain. rewrite (variables_set_path _ _ _ _ Hpath Hset).
    destruct (persist_history json_dumps (Pathlib.of_string p) M' w
                (of_string_well_formed p))
      as [[(states & Hpast & Hstates) Hfinal] Htmp].
    split; [|split].
    + exists states. split; [exact Hpast|].
      eapply Forall_impl; [exact Hstates|]. intros fs [?|?]; [by left|right; eauto].
    + intros Hr. by rewrite Hr in Hfinal.
    + intros Hr. split; [by apply Htmp|]. rewrite Hr in Hfinal. eauto.
Qed.

Lemma main_keeps_or_replaces_witness :
  w_fs (snd (main sample_loads sample_dumps (sample_world sample_vars byte_ff)))
    !! sample_path = Some (File byte_ff).
Proof.
  destruct (main_keeps_or_replaces sample_loads sample_dumps
              (sample_world sample_vars byte_ff) "dist/manifest.json")
    as (_ & Hkeep & _); [vm_compute; reflexivity|].
  change sample_path with (Pathlib.of_string "dist/manifest.json").
  rewrite Hkeep; vm_compute; reflexivity.
Defined.




